(** * Auth0Common: the PKCE sign-in session of nativescript-auth0

    A shallow embedding of [packages/nativescript-auth0/common.ts]:
    [getRandomValues], the URL builders with [objectToQueryParams], the
    token store, and the methods [setUp], [signIn], [signUp], [logOut],
    [loggedIn] and [getAccessToken] with the private methods they call
    ([getUserInfo], whose answer is a JSON value of any shape, is not
    part of this development).

    JavaScript strings are byte strings (UTF-8), numbers that the code
    uses as integers are [Z], the two key/value stores are finite maps,
    and the asynchronous methods are functions of an explicit world in an
    error-and-state monad. The browser, the HTTP transport, [Math.random],
    [URL] and the hashing library are collaborators whose answers are
    taken as given. *)

From Stdlib Require Import ZArith QArith Qround Ascii String List Lia.
From stdpp Require Import base option gmap strings list.

Local Open Scope string_scope.
Local Open Scope Z_scope.

(** ** JavaScript strings *)

Module Js.

(** [s.charAt(i)]: the one-character string at index [i], or the empty
    string out of range. *)
Definition charAt (s : string) (i : Z) : string :=
  if i <? 0 then ""
  else match String.get (Z.to_nat i) s with
       | Some c => String c ""
       | None => ""
       end.

(** A string is truthy when it is not empty. *)
Definition truthy (s : string) : bool :=
  match s with
  | "" => false
  | _ => true
  end.

(** An absent ([undefined] or [null]) value is falsy as well. *)
Definition truthy_opt (o : option string) : bool :=
  match o with
  | Some s => truthy s
  | None => false
  end.

(** [a || b] on possibly absent strings. *)
Definition or_else (o : option string) (d : option string) : option string :=
  if truthy_opt o then o else d.

(** The text a template literal or [String(v)] gives for a possibly
    undefined string. *)
Definition show (o : option string) : string :=
  match o with
  | Some s => s
  | None => "undefined"
  end.

(** [s.replace(/c/g, r)] for a one-character pattern. *)
Fixpoint replace_all (c : ascii) (r : string) (s : string) : string :=
  match s with
  | "" => ""
  | String a s' =>
      (if Ascii.eqb a c then r else String a "") +:+ replace_all c r s'
  end.

(** [s.split(c)] for a one-character separator: [cur] collects, in
    reverse, the characters read since the last separator. *)
Fixpoint split_from (c : ascii) (cur : list ascii) (s : string) : list string :=
  match s with
  | "" => [string_of_list_ascii (rev cur)]
  | String a s' =>
      if Ascii.eqb a c
      then string_of_list_ascii (rev cur) :: split_from c [] s'
      else split_from c (a :: cur) s'
  end.

Definition split (c : ascii) (s : string) : list string := split_from c [] s.

(** [parts.join(sep)]. *)
Fixpoint join (sep : string) (parts : list string) : string :=
  match parts with
  | [] => ""
  | [p] => p
  | p :: ps => p +:+ sep +:+ join sep ps
  end.

(** [s.includes(needle)]. *)
Fixpoint includes (needle : string) (s : string) : bool :=
  String.prefix needle s ||
  match s with
  | "" => false
  | String _ s' => includes needle s'
  end.

(** Whether the character [c] occurs in [s]. *)
Fixpoint occurs (c : ascii) (s : string) : bool :=
  match s with
  | "" => false
  | String a s' => Ascii.eqb a c || occurs c s'
  end.

End Js.

(** ** PKCE verifier *)

Definition possible : string :=
  "ABCDEFGHIJKLMNOPQRSTUVWXYZabcdefghijklmnopqrstuvwxyz0123456789".

(** [Math.floor(Math.random() * possible.length)] for the value [r] that
    [Math.random()] returned. *)
Definition random_index (r : Q) : Z :=
  Qfloor (r * inject_Z (Z.of_nat (String.length possible))).

(** The loop of [getRandomValues]: [todo] iterations are left, [draws]
    calls of [Math.random] were made so far, whose [k]-th call returns
    [random k]. *)
Fixpoint getRandomValues_loop (random : nat -> Q) (todo : nat) (draws : nat)
    (benchStr : string) : string * nat :=
  match todo with
  | O => (benchStr, draws)
  | S todo' =>
      getRandomValues_loop random todo' (S draws)
        (benchStr +:+ Js.charAt possible (random_index (random draws)))
  end.

(** [getRandomValues(size)]; [None] is an omitted size. Returns the string
    and the number of [Math.random] calls made. *)
Definition getRandomValues (random : nat -> Q) (size : option Z) (draws : nat)
    : string * nat :=
  let size :=
    match size with
    | Some n => if (43 <=? n) && (n <=? 128) then n else 128
    | None => 128
    end in
  getRandomValues_loop random (Z.to_nat size) draws "".

(** The alphabet [A-Za-z0-9], as the specification words it. *)
Definition is_alnum (c : ascii) : bool :=
  let n := nat_of_ascii c in
  ((65 <=? n) && (n <=? 90) || (97 <=? n) && (n <=? 122) || (48 <=? n) && (n <=? 57))%nat.

Fixpoint all_chars (p : ascii -> bool) (s : string) : bool :=
  match s with
  | "" => true
  | String a s' => p a && all_chars p s'
  end.

(** ** Errors and results *)

Inductive Error : Type :=
| TypeError                                   (* a property read of [undefined] or [null] *)
| JsError (message : string)                  (* [new Error(message)] *)
| Auth0Error (message : string) (cause : Error)
                                              (* [new Auth0Error(message, { error: cause })] *)
| Auth0ErrorPlain (message : string)          (* [new Auth0Error(message, {})] *)
| Rejected (reason : string).                 (* a failure raised by a collaborator *)

Inductive Result (A : Type) : Type :=
| Ok (a : A)
| Throw (e : Error).
Arguments Ok {A} a.
Arguments Throw {A} e.

(** The errors of the specification's taxonomy, as the code raises them. *)
Definition ConfigError : Error :=
  JsError "Auth0 configuration is missing required fields.".

Definition SignInError (cause : Error) : Error :=
  Auth0Error "Error during sign in" cause.

Definition LogoutError (cause : Error) : Error :=
  Auth0Error "Something happened while logging out" cause.

Definition ExchangeError (cause : Error) : Error :=
  Auth0Error "Issue when fetching an access token using a refresh token" cause.

(** ** Data model *)

Record Auth0Config : Type := {
  domain : option string;
  clientId : option string;
  audience : option string;
  redirectUri : option string;
  scope : option string
}.

(** [browserConfig] is passed to the browser as it is. *)
Record Config : Type := {
  auth0Config : Auth0Config;
  browserConfig : string
}.

(** The JSON object of a token response; an absent member is [None]. *)
Record TokenJson : Type := {
  access_token : option string;
  refresh_token : option string;
  expires_in : option Z
}.

(** A JavaScript number that holds a time value. *)
Inductive Number : Type :=
| Num (z : Z)
| NaN.

(** A value of [ApplicationSettings]. *)
Inductive Setting : Type :=
| SNumber (n : Number)
| SString (s : string)
| SBoolean (b : bool).

Inductive AuthType : Type := success | cancel | dismiss.

(** [AuthSessionResult] of the in-app browser. *)
Record AuthSessionResult : Type := {
  res_type : AuthType;
  res_url : option string
}.

(** A request to [Http.request]: [req_content] is the object handed to
    [JSON.stringify], member by member. *)
Record HttpRequest : Type := {
  req_url : string;
  req_method : string;
  req_headers : list (string * string);
  req_content : list (string * option string)
}.

(** A response: [content] is what [response.content.toJSON()] gives, a
    failure to parse, [null] ([None]) or an object. *)
Record HttpResponse : Type := {
  statusCode : Z;
  content : Result (option TokenJson)
}.

(** What the session does to the outside, with the answer it got. *)
Inductive Event : Type :=
| EvIsAvailable (reply : Result bool)
| EvOpenAuth (url : string) (returnUrl : option string)
    (options : option string) (reply : Result AuthSessionResult)
| EvMayLaunchUrl (url : string)
| EvOpenUrl (url : string)
| EvRequest (req : HttpRequest) (reply : Result HttpResponse)
| EvConsoleError (message : string)
| EvNext (value : option string).             (* [accessToken$.next(value)] *)

(** The session object with the device around it: the two fields of
    [Auth0Common], [SecureStorage], [ApplicationSettings], the clock in
    epoch milliseconds, the number of [Math.random] calls made and the
    events so far, newest first. *)
Record World : Type := {
  config : option Config;
  verifier : option string;
  secure : gmap string string;
  settings : gmap string Setting;
  now : Z;
  draws : nat;
  trace : list Event
}.

(** The collaborators: each answers from the world it is called in.
    [latency] is the time an awaited call takes, in milliseconds;
    [searchParam u name] is
    [new URLSearchParams(new URL(u).search).get(name)];
    [localTZA t isUTC] is the offset of the device's time zone, in
    milliseconds, at the instant [t] when [isUTC], and at the local time
    [t] otherwise (a local time that a zone change skips or repeats reads
    with the offset before the change). *)
Record Env : Type := {
  isAndroid : bool;
  random : nat -> Q;
  latency : World -> nat;
  isAvailable : World -> Result bool;
  openAuth : World -> string -> option string -> option string -> Result AuthSessionResult;
  request : World -> HttpRequest -> Result HttpResponse;
  searchParam : string -> string -> Result (option string);
  localTZA : Z -> bool -> Z
}.

(** The storage key namespace. *)
Definition KEY_REFRESH_TOKEN : string := "@plantimer/auth0_refresh_token".
Definition KEY_ACCESS_TOKEN : string := "@plantimer/auth0_access_token".
Definition KEY_ACCESS_TOKEN_EXPIRE : string := "@plantimer/auth0_access_token_expire".
Definition KEY_USER_INFO : string := "@plantimer/auth0_user_info".
Definition KEY_USER_LOGGED_IN : string := "@plantimer/auth0_user_logged_in".

(** ** The monad of the methods *)

Definition M (A : Type) : Type := World -> Result A * World.

Definition ret {A} (a : A) : M A := fun w => (Ok a, w).

Definition throw {A} (e : Error) : M A := fun w => (Throw e, w).

Definition bind {A B} (m : M A) (k : A -> M B) : M B :=
  fun w =>
    match m w with
    | (Ok a, w') => k a w'
    | (Throw e, w') => (Throw e, w')
    end.

(** [try { m } catch (e) { handler e }] *)
Definition try_catch {A} (m : M A) (handler : Error -> M A) : M A :=
  fun w =>
    match m w with
    | (Ok a, w') => (Ok a, w')
    | (Throw e, w') => handler e w'
    end.

Notation "'let*' x ':=' m 'in' k" := (bind m (fun x => k))
  (at level 10, x name, m at level 100, k at level 200).

(** Lifting a [Result] into the monad. *)
Definition lift {A} (r : Result A) : M A :=
  match r with
  | Ok a => ret a
  | Throw e => throw e
  end.

Definition update_secure (f : gmap string string -> gmap string string) : M unit :=
  fun w => (Ok tt,
    {| config := config w; verifier := verifier w; secure := f (secure w);
       settings := settings w; now := now w; draws := draws w; trace := trace w |}).

Definition update_settings (f : gmap string Setting -> gmap string Setting) : M unit :=
  fun w => (Ok tt,
    {| config := config w; verifier := verifier w; secure := secure w;
       settings := f (settings w); now := now w; draws := draws w; trace := trace w |}).

Definition log (e : Event) : M unit :=
  fun w => (Ok tt,
    {| config := config w; verifier := verifier w; secure := secure w;
       settings := settings w; now := now w; draws := draws w; trace := e :: trace w |}).

(** The clock moves on while a call is awaited. *)
Definition elapse (ms : nat) : M unit :=
  fun w => (Ok tt,
    {| config := config w; verifier := verifier w; secure := secure w;
       settings := settings w; now := now w + Z.of_nat ms; draws := draws w;
       trace := trace w |}).

(** [SecureStorage]: [getSync], [setSync], [removeSync]. *)
Definition getSync (key : string) : M (option string) :=
  fun w => (Ok (secure w !! key), w).

Definition setSync (key value : string) : M unit :=
  update_secure (fun m => <[key := value]> m).

Definition removeSync (key : string) : M unit :=
  update_secure (fun m => delete key m).

(** [ApplicationSettings]: a getter gives [undefined] for a missing key
    (and, here, for a value of another type). *)
Definition getNumber (key : string) : M (option Number) :=
  fun w => (Ok (match settings w !! key with
                | Some (SNumber n) => Some n
                | _ => None
                end), w).

Definition setNumber (key : string) (n : Number) : M unit :=
  update_settings (fun m => <[key := SNumber n]> m).

Definition remove (key : string) : M unit :=
  update_settings (fun m => delete key m).

Definition hasKey (key : string) : M bool :=
  fun w => (Ok (match settings w !! key with
                | Some _ => true
                | None => false
                end), w).

Definition getBoolean (key : string) : M (option bool) :=
  fun w => (Ok (match settings w !! key with
                | Some (SBoolean b) => Some b
                | _ => None
                end), w).

Definition setBoolean (key : string) (b : bool) : M unit :=
  update_settings (fun m => <[key := SBoolean b]> m).

(** [new Date().getTime()] and [Date.now()]. *)
Definition Date_now : M Z := fun w => (Ok (now w), w).

(** [this.config], whose member reads fail on [undefined]. *)
Definition this_config : M Config :=
  fun w =>
    match config w with
    | Some c => (Ok c, w)
    | None => (Throw TypeError, w)
    end.

Definition this_verifier : M (option string) := fun w => (Ok (verifier w), w).

(** ** Query strings *)

Definition hex_digit (n : nat) : ascii :=
  match String.get n "0123456789ABCDEF" with
  | Some c => c
  | None => "0"%char
  end.

(** The characters [encodeURIComponent] leaves as they are. *)
Definition uri_unreserved (c : ascii) : bool :=
  is_alnum c || Js.occurs c "-_.!~*'()".

Definition encode_char (c : ascii) : string :=
  if uri_unreserved c then String c ""
  else
    let n := nat_of_ascii c in
    String "%" (String (hex_digit (n / 16)) (String (hex_digit (n mod 16)) "")).

(** [encodeURIComponent(s)] on the UTF-8 bytes of [s]. *)
Fixpoint encodeURIComponent (s : string) : string :=
  match s with
  | "" => ""
  | String c s' => encode_char c +:+ encodeURIComponent s'
  end.

(** A value of the [params] record: an array holds the [String(item)] of
    its items, an object its [JSON.stringify] text. *)
Inductive ParamValue : Type :=
| PNull
| PUndefined
| PString (s : string)
| PArray (items : list string)
| PObject (json : string).

Definition is_valid_param (kv : string * ParamValue) : bool :=
  match snd kv with
  | PNull | PUndefined => false
  | _ => true
  end.

Definition key_value (key value : string) : string :=
  encodeURIComponent key +:+ "=" +:+ encodeURIComponent value.

Definition render_param (kv : string * ParamValue) : string :=
  let (key, value) := kv in
  match value with
  | PArray items => Js.join "&" (map (key_value key) items)
  | PObject json => key_value key json
  | PString s => key_value key s
  | PNull => key_value key "null"
  | PUndefined => key_value key "undefined"
  end.

Definition objectToQueryParams (params : list (string * ParamValue)) : string :=
  let validParams := List.filter is_valid_param params in
  if (List.length validParams =? 0)%nat then ""
  else
    let queryString := Js.join "&" (map render_param validParams) in
    "?" +:+ queryString.

(** A member that may be [undefined]. *)
Definition param_of (o : option string) : ParamValue :=
  match o with
  | Some s => PString s
  | None => PUndefined
  end.

(** [o || null] *)
Definition param_or_null (o : option string) : ParamValue :=
  match o with
  | Some s => if Js.truthy s then PString s else PNull
  | None => PNull
  end.

(** Reading a query string back, as a server does: the pairs between
    [&], each cut at its first [=]. *)
Fixpoint cut_at (c : ascii) (s : string) : string * string :=
  match s with
  | "" => ("", "")
  | String a s' =>
      if Ascii.eqb a c then ("", s')
      else let (k, v) := cut_at c s' in (String a k, v)
  end.

Definition query_pairs (query : string) : list (string * string) :=
  match query with
  | String "?" q => map (cut_at "=") (Js.split "&" q)
  | _ => []
  end.

(** ** Time values *)

(** [TimeClip]: a time value beyond 8.64e15 milliseconds is no date. *)
Definition TimeClip (t : Z) : Number :=
  if Z.abs t <=? 8640000000000000 then Num t else NaN.

(** [d.setSeconds(d.getSeconds() + seconds); d.getTime()] for a date [d]
    at the instant [t]: the seconds are added to the local calendar time
    of [d], and the sum is read back as an instant with the offset at
    that local time. An absent [seconds] makes the sum, and so the date,
    [NaN]. *)
Definition add_seconds (tza : Z -> bool -> Z) (t : Z) (seconds : option Z) : Number :=
  match seconds with
  | Some k =>
      let local := t + tza t true in
      let date := local + 1000 * k in
      TimeClip (date - tza date false)
  | None => NaN
  end.

(** Truthiness of a number read from the settings. *)
Definition number_truthy (n : option Number) : bool :=
  match n with
  | Some (Num z) => negb (z =? 0)
  | _ => false
  end.

(** [t <= n] *)
Definition number_ge (n : option Number) (t : Z) : bool :=
  match n with
  | Some (Num z) => t <=? z
  | _ => false
  end.

(** What [fetchCodeInAppBrowser] resolves to: [string | false], or
    [undefined] when [split] gives one part only. *)
Inductive Code : Type :=
| CodeString (s : string)
| CodeUndefined
| CodeFalse.

(** ** The methods of [Auth0Common] *)

Section Auth0Common.

Context {WordArray : Type}.
Variable SHA256 : option string -> WordArray.
Variable Base64_stringify : WordArray -> string.
Variable env : Env.

(** An awaited call of a collaborator: it answers from the world of the
    call, time passes, and the answer is recorded. *)
Definition await {A} (ask : World -> Result A) (event : Result A -> Event) : M A :=
  fun w =>
    let reply := ask w in
    (let* _ := elapse (latency env w) in
     let* _ := log (event reply) in
     lift reply) w.

Definition InAppBrowser_isAvailable : M bool :=
  await (isAvailable env) EvIsAvailable.

Definition InAppBrowser_openAuth (url : string) (returnUrl options : option string)
    : M AuthSessionResult :=
  await (fun w => openAuth env w url returnUrl options) (EvOpenAuth url returnUrl options).

Definition Http_request (req : HttpRequest) : M HttpResponse :=
  await (fun w => request env w req) (EvRequest req).

(** The first line of [prepareSignInAuthUrl]. *)
Definition challenge (verifier : option string) : string :=
  Js.replace_all "=" ""
    (Js.replace_all "/" "_"
      (Js.replace_all "+" "-" (Base64_stringify (SHA256 verifier)))).

Definition storeAccessToken (json : option TokenJson) : M (option string) :=
  let accessToken :=
    match json with
    | Some j => access_token j
    | None => None
    end in
  match accessToken, json with
  | Some token, Some j =>
      if negb (Js.truthy token) then ret None
      else
        let expireSeconds := expires_in j in
        let* _ := setSync KEY_ACCESS_TOKEN token in
        let* expireDate := Date_now in
        let* _ := setNumber KEY_ACCESS_TOKEN_EXPIRE
                    (add_seconds (localTZA env) expireDate expireSeconds) in
        ret (Some token)
  | _, _ => ret None
  end.

Definition storeRefreshToken (json : option TokenJson) : M (option string) :=
  match json with
  | None => throw TypeError
  | Some j =>
      match refresh_token j with
      | Some refreshToken =>
          if negb (Js.truthy refreshToken) then ret None
          else
            let* _ := setSync KEY_REFRESH_TOKEN refreshToken in
            ret (Some refreshToken)
      | None => ret None
      end
  end.

Definition setTokens (json : option TokenJson) : M unit :=
  let* _ := storeRefreshToken json in
  let* _ := storeAccessToken json in
  ret tt.

Definition clearStorage : M unit :=
  let* _ := removeSync KEY_REFRESH_TOKEN in
  let* _ := removeSync KEY_ACCESS_TOKEN in
  let* _ := remove KEY_ACCESS_TOKEN_EXPIRE in
  let* _ := remove KEY_USER_INFO in
  let* _ := remove KEY_USER_LOGGED_IN in
  log (EvNext (Some "")).

Definition signIn_params (c : Auth0Config) (challenge : string)
    (loginHint connection screenHint : option string) : list (string * ParamValue) :=
  [ ("audience", param_of (audience c));
    ("scope", param_of (Js.or_else (scope c) (Some "offline_access openid profile email")));
    ("response_type", PString "code");
    ("client_id", param_of (clientId c));
    ("redirect_uri", param_of (redirectUri c));
    ("code_challenge", PString challenge);
    ("code_challenge_method", PString "S256");
    ("login_hint", param_or_null loginHint);
    ("connection", param_or_null connection);
    ("screen_hint", param_or_null screenHint) ].

Definition prepareSignInAuthUrl (loginHint connection screenHint : option string)
    : M string :=
  let* v := this_verifier in
  let challenge := challenge v in
  let* cfg := this_config in
  let c := auth0Config cfg in
  let params := signIn_params c challenge loginHint connection screenHint in
  if negb (Js.truthy_opt (audience c)) || negb (Js.truthy_opt (clientId c))
     || negb (Js.truthy_opt (redirectUri c))
  then
    let* _ := log (EvConsoleError
      "Auth0 configuration is missing required fields (audience, client_id, redirect_uri)") in
    throw ConfigError
  else
    ret ("https://" +:+ Js.show (domain c) +:+ "/authorize" +:+ objectToQueryParams params).

Definition prepareSignUpAuthUrl (loginHint : option string) : M string :=
  prepareSignInAuthUrl loginHint None (Some "signup").

Definition logOut_params (c : Auth0Config) : list (string * ParamValue) :=
  [ ("client_id", param_of (clientId c));
    ("returnTo", param_of (redirectUri c)) ].

Definition prepareLogOutAuthUrl : M string :=
  let* cfg := this_config in
  let c := auth0Config cfg in
  let params := logOut_params c in
  if negb (Js.truthy_opt (clientId c)) || negb (Js.truthy_opt (redirectUri c))
  then
    let* _ := log (EvConsoleError
      "Auth0 configuration is missing required fields (client_id, returnTo)") in
    throw ConfigError
  else
    ret ("https://" +:+ Js.show (domain c) +:+ "/v2/logout" +:+ objectToQueryParams params).

(** [response.type === 'success' && response.url?.includes('/passwordless')] *)
Definition is_passwordless (response : AuthSessionResult) : bool :=
  match res_type response, res_url response with
  | success, Some u => Js.includes "/passwordless" u
  | _, _ => false
  end.

(** [response.url.split('=')[1]] *)
Definition code_of_url (u : string) : Code :=
  match nth_error (Js.split "=" u) 1 with
  | Some c => CodeString c
  | None => CodeUndefined
  end.

Definition fetchCodeInAppBrowser (authorizeUrl : string) : M Code :=
  let* cfg := this_config in
  let* response :=
    InAppBrowser_openAuth authorizeUrl (redirectUri (auth0Config cfg)) None in
  let* response :=
    (if is_passwordless response then
       let* loginHint := lift (searchParam env (Js.show (res_url response)) "login_hint") in
       let* url := prepareSignInAuthUrl loginHint (Some "email") None in
       InAppBrowser_openAuth url (redirectUri (auth0Config cfg)) None
     else ret response) in
  match res_type response, res_url response with
  | success, Some u => if Js.truthy u then ret (code_of_url u) else ret CodeFalse
  | _, _ => ret CodeFalse
  end.

Definition fetchRefreshToken (code : string) (verifier : option string) : M unit :=
  if negb (Js.truthy code) || negb (Js.truthy_opt verifier)
  then throw (Auth0ErrorPlain "Missing code or verifier")
  else
    let* cfg := this_config in
    let c := auth0Config cfg in
    let* refresh_token_response :=
      Http_request
        {| req_url := "https://" +:+ Js.show (domain c) +:+ "/oauth/token";
           req_method := "POST";
           req_headers := [("content-type", "application/json")];
           req_content :=
             [ ("grant_type", Some "authorization_code");
               ("client_id", clientId c);
               ("code", Some code);
               ("code_verifier", verifier);
               ("audience", audience c);
               ("redirect_uri", redirectUri c) ] |} in
    let* json := lift (content refresh_token_response) in
    let* _ := storeRefreshToken json in
    let* _ := storeAccessToken json in
    ret tt.

Definition fetchAccessToken : M (option string) :=
  let* refreshToken := getSync KEY_REFRESH_TOKEN in
  match refreshToken with
  | Some refreshToken =>
      if negb (Js.truthy refreshToken) then ret None
      else
        try_catch
          (let* cfg := this_config in
           let c := auth0Config cfg in
           let* response :=
             Http_request
               {| req_url := "https://" +:+ Js.show (domain c) +:+ "/oauth/token";
                  req_method := "POST";
                  req_headers := [("content-type", "application/json")];
                  req_content :=
                    [ ("grant_type", Some "refresh_token");
                      ("client_id", clientId c);
                      ("refresh_token", Some refreshToken) ] |} in
           let* json := lift (content response) in
           let* _ := storeRefreshToken json in
           let* _ := storeAccessToken json in
           match json with
           | Some j => ret (access_token j)
           | None => throw TypeError
           end)
          (fun e => throw (ExchangeError e))
  | None => ret None
  end.

(** The refresh path of [getAccessToken]. *)
Definition refresh : M (option string) :=
  let* accessToken := fetchAccessToken in
  let* _ := log (EvNext accessToken) in
  ret accessToken.

Definition getAccessToken (force : bool) : M (option string) :=
  let* _ := (if force then removeSync KEY_ACCESS_TOKEN else ret tt) in
  let* tokenExpire := getNumber KEY_ACCESS_TOKEN_EXPIRE in
  let* storedToken := getSync KEY_ACCESS_TOKEN in
  let* t := Date_now in
  if Js.truthy_opt storedToken && number_truthy tokenExpire && number_ge tokenExpire t
  then ret storedToken
  else refresh.

Definition signIn (loginHint connection : option string) : M bool :=
  try_catch
    (let* authorizeUrl := prepareSignInAuthUrl loginHint connection None in
     let* code := fetchCodeInAppBrowser authorizeUrl in
     match code with
     | CodeString c =>
         if negb (Js.truthy c) then ret false
         else
           let* v := this_verifier in
           let* _ := fetchRefreshToken c v in
           ret true
     | _ => ret false
     end)
    (fun e =>
       let* _ := clearStorage in
       throw (SignInError e)).

Definition signUp (loginHint : option string) : M bool :=
  let* authorizeUrl := prepareSignUpAuthUrl loginHint in
  let* code := fetchCodeInAppBrowser authorizeUrl in
  match code with
  | CodeString c =>
      if negb (Js.truthy c) then ret false
      else
        let* v := this_verifier in
        let* _ := fetchRefreshToken c v in
        ret true
  | _ => ret false
  end.

Definition logOut : M bool :=
  let* cfg := this_config in
  let returnTo := redirectUri (auth0Config cfg) in
  let* logout := prepareLogOutAuthUrl in
  try_catch
    (let* available := InAppBrowser_isAvailable in
     let* cancelled :=
       (if available then
          let* response :=
            InAppBrowser_openAuth logout returnTo (Some (browserConfig cfg)) in
          match res_type response with
          | cancel => ret true
          | _ => ret false
          end
        else
          let* _ := log (EvOpenUrl logout) in
          ret false) in
     if cancelled then ret false
     else
       let* _ := clearStorage in
       ret true)
    (fun e => throw (LogoutError e)).

Definition setUp (cfg : Config) : M unit :=
  let* _ :=
    (fun w =>
       let (v, n) := getRandomValues (random env) (Some 32) (draws w) in
       (Ok tt,
        {| config := Some cfg; verifier := Some v; secure := secure w;
           settings := settings w; now := now w; draws := n; trace := trace w |})) in
  if isAndroid env then
    let* url := prepareSignInAuthUrl None None None in
    log (EvMayLaunchUrl url)
  else ret tt.

(** [loggedIn()]: the cached flag when there is one ([None] stands for
    the [undefined] that [getBoolean] gives for a value that is no
    boolean), else whether [getAccessToken()] gives a token; an error of
    the token check counts as not logged in. *)
Definition loggedIn : M (option bool) :=
  let* cached := hasKey KEY_USER_LOGGED_IN in
  if cached then getBoolean KEY_USER_LOGGED_IN
  else
    let* isLoggedIn :=
      try_catch
        (let* hasToken := getAccessToken false in
         let isLoggedIn := Js.truthy_opt hasToken in
         let* _ :=
           (if isLoggedIn then setBoolean KEY_USER_LOGGED_IN true else ret tt) in
         ret isLoggedIn)
        (fun _ => ret false) in
    ret (Some isLoggedIn).

End Auth0Common.

(** ** A sample device, for the examples *)

Module Sample.

(** Stand-ins for the hashing library. *)
Definition SHA256 (message : option string) : string := Js.show message.
Definition Base64_stringify (digest : string) : string := digest +:+ "+/=".

Definition auth0 : Auth0Config :=
  {| domain := Some "t.auth0.com"; clientId := Some "c"; audience := Some "a";
     redirectUri := Some "app://cb"; scope := None |}.

Definition cfg : Config := {| auth0Config := auth0; browserConfig := "{}" |}.

Definition tokens : TokenJson :=
  {| access_token := Some "X"; refresh_token := Some "Y"; expires_in := Some 3600 |}.

(** A configured session on a device with nothing stored. *)
Definition fresh : World :=
  {| config := Some cfg; verifier := Some "abc"; secure := ∅; settings := ∅;
     now := 1700000000000; draws := 0; trace := [] |}.

(** The same session with tokens, user info and the login flag stored. *)
Definition signed_in : World :=
  {| config := Some cfg; verifier := Some "abc";
     secure := {[ KEY_REFRESH_TOKEN := "R"; KEY_ACCESS_TOKEN := "A" ]};
     settings := {[ KEY_ACCESS_TOKEN_EXPIRE := SNumber (Num 1700000500000);
                    KEY_USER_INFO := SString "{}";
                    KEY_USER_LOGGED_IN := SBoolean true ]};
     now := 1700000000000; draws := 0; trace := [] |}.

(** Collaborators that give the same answers whenever they are asked. *)
Definition env (browser : Result AuthSessionResult) (http : Result HttpResponse) : Env :=
  {| isAndroid := false;
     random := fun _ => 1 # 2;
     latency := fun _ => 5%nat;
     isAvailable := fun _ => Ok true;
     openAuth := fun _ _ _ _ => browser;
     request := fun _ _ => http;
     searchParam := fun _ _ => Ok None;
     localTZA := fun _ _ => 0 |}.

Definition callback (u : string) : Result AuthSessionResult :=
  Ok {| res_type := success; res_url := Some u |}.

Definition cancelled : Result AuthSessionResult :=
  Ok {| res_type := cancel; res_url := None |}.

Definition token_response : Result HttpResponse :=
  Ok {| statusCode := 200; content := Ok (Some tokens) |}.

Definition network_down : Result HttpResponse := Throw (Rejected "network").

(** A callback URL with two parameters. *)
Definition two_equals : string := "app://cb?code=abc&state=xyz".

(** A session whose configuration has an empty audience. *)
Definition no_audience : World :=
  {| config := Some {| auth0Config :=
                         {| domain := Some "t.auth0.com"; clientId := Some "c";
                            audience := Some ""; redirectUri := Some "app://cb";
                            scope := None |};
                       browserConfig := "{}" |};
     verifier := Some "abc"; secure := ∅; settings := ∅;
     now := 1700000000000; draws := 0; trace := [] |}.

(** A token response that renews the refresh token only. *)
Definition refresh_only : TokenJson :=
  {| access_token := None; refresh_token := Some "Y2"; expires_in := Some 3600 |}.

(** The browser fails to open. *)
Definition browser_down : Result AuthSessionResult := Throw (Rejected "browser").

(** Collaborators on a device without the in-app browser. *)
Definition without_browser : Env :=
  {| isAndroid := false;
     random := fun _ => 1 # 2;
     latency := fun _ => 5%nat;
     isAvailable := fun _ => Ok false;
     openAuth := fun _ _ _ _ => browser_down;
     request := fun _ _ => network_down;
     searchParam := fun _ _ => Ok None;
     localTZA := fun _ _ => 0 |}.

(** A callback URL that asks for the passwordless restart. *)
Definition passwordless_url : string := "app://cb/passwordless?login_hint=me".

(** A callback URL with the code alone. *)
Definition code_url : string := "app://cb?code=abc".

(** The signed-in session after its access token has expired. *)
Definition expired : World :=
  {| config := Some cfg; verifier := Some "abc";
     secure := {[ KEY_REFRESH_TOKEN := "R"; KEY_ACCESS_TOKEN := "A" ]};
     settings := {[ KEY_ACCESS_TOKEN_EXPIRE := SNumber (Num 1700000500000) ]};
     now := 1700000600000; draws := 0; trace := [] |}.

(** The time zone of Lord Howe Island around the first of October 2023,
    when its clocks go from 02:00 (UTC+10:30) to 02:30 (UTC+11). *)
Definition lord_howe (t : Z) (isUTC : bool) : Z :=
  if isUTC then (if t <? 1696087800000 then 37800000 else 39600000)
  else (if t <? 1696087800000 + 39600000 then 37800000 else 39600000).

(** The collaborators of [env] on a device in that time zone. *)
Definition env_lord_howe (browser : Result AuthSessionResult)
    (http : Result HttpResponse) : Env :=
  {| isAndroid := false;
     random := fun _ => 1 # 2;
     latency := fun _ => 5%nat;
     isAvailable := fun _ => Ok true;
     openAuth := fun _ _ _ _ => browser;
     request := fun _ _ => http;
     searchParam := fun _ _ => Ok None;
     localTZA := lord_howe |}.

(** A configured session with nothing stored, a quarter of an hour
    before that change: 2023-09-30T15:15:00Z, 01:45 local time. *)
Definition before_change : World :=
  {| config := Some cfg; verifier := Some "abc"; secure := ∅; settings := ∅;
     now := 1696086900000; draws := 0; trace := [] |}.

(** A record of parameters of every kind. *)
Definition params : list (string * ParamValue) :=
  [ ("q", PString "a b&c"); ("skip", PNull); ("tag", PArray ["x"; "y=z"]);
    ("none", PUndefined); ("filter", PObject "{}") ].

End Sample.

(** ** What the properties speak of *)

(** The derivation as the specification words it: every [+] becomes [-],
    every [/] becomes [_] and every [=] is dropped, in one pass. *)
Definition url_safe_char (c : ascii) : string :=
  if Ascii.eqb c "+" then "-"
  else if Ascii.eqb c "/" then "_"
  else if Ascii.eqb c "=" then ""
  else String c "".

Fixpoint url_safe (s : string) : string :=
  match s with
  | "" => ""
  | String c s' => url_safe_char c +:+ url_safe s'
  end.

(** None of the five storage keys holds a value. *)
Definition keys_absent (w : World) : Prop :=
  secure w !! KEY_REFRESH_TOKEN = None /\
  secure w !! KEY_ACCESS_TOKEN = None /\
  settings w !! KEY_ACCESS_TOKEN_EXPIRE = None /\
  settings w !! KEY_USER_INFO = None /\
  settings w !! KEY_USER_LOGGED_IN = None.

(** A usable access token is stored: a non-empty token, with an expiry
    instant that the clock has not passed. *)
Definition token_valid (w : World) : Prop :=
  exists token expiry,
    secure w !! KEY_ACCESS_TOKEN = Some token /\ token <> "" /\
    settings w !! KEY_ACCESS_TOKEN_EXPIRE = Some (SNumber (Num expiry)) /\
    now w <= expiry.

(** The number [getAccessToken] reads as [tokenExpire]. *)
Definition stored_expiry (w : World) : option Number :=
  match settings w !! KEY_ACCESS_TOKEN_EXPIRE with
  | Some (SNumber n) => Some n
  | _ => None
  end.

(** A required field is missing: absent, or the empty string. *)
Definition missing (o : option string) : Prop := o = None \/ o = Some "".

(** The substring after the first [c], as the specification words it;
    [None] when [c] does not occur. *)
Fixpoint after_first (c : ascii) (s : string) : option string :=
  match s with
  | "" => None
  | String a s' => if Ascii.eqb a c then Some s' else after_first c s'
  end.

(** The text up to the first [c], or all of it. *)
Definition before_first (c : ascii) (s : string) : string := fst (cut_at c s).

(** The value of a hexadecimal digit. *)
Definition hex_value (c : ascii) : option nat :=
  let n := nat_of_ascii c in
  (if (48 <=? n) && (n <=? 57) then Some (n - 48)
   else if (65 <=? n) && (n <=? 70) then Some (n - 55)
   else if (97 <=? n) && (n <=? 102) then Some (n - 87)
   else None)%nat.

(** Percent-decoding, as the reader of a query does it: [%XY] is the byte
    [XY]; a [%] that two hexadecimal digits do not follow is kept. *)
Fixpoint percent_decode (s : string) : string :=
  match s with
  | "" => ""
  | String c s' =>
      if Ascii.eqb c "%" then
        match s' with
        | String h (String l rest) =>
            match hex_value h, hex_value l with
            | Some a, Some b =>
                String (ascii_of_nat (16 * a + b)) (percent_decode rest)
            | _, _ => String c (percent_decode s')
            end
        | _ => String c (percent_decode s')
        end
      else String c (percent_decode s')
  end.

(** The pairs of a query, decoded. *)
Definition decoded_pairs (query : string) : list (string * string) :=
  map (fun kv => (percent_decode (fst kv), percent_decode (snd kv))) (query_pairs query).

(** The pairs a parameter stands for: one for a string or an object, one
    for each item of an array, none for [null] and [undefined]. *)
Definition param_pairs (kv : string * ParamValue) : list (string * string) :=
  match snd kv with
  | PArray items => map (pair (fst kv)) items
  | PObject json => [(fst kv, json)]
  | PString s => [(fst kv, s)]
  | PNull | PUndefined => []
  end.

(** The pair a hint adds to the query: none for an absent or empty hint. *)
Definition hint_pair (key : string) (hint : option string) : list (string * string) :=
  match hint with
  | Some h => if Js.truthy h then [(key, h)] else []
  | None => []
  end.

(** The scope sent: the configured one, or the default for an absent or
    empty one. *)
Definition scope_sent (c : Auth0Config) : string :=
  match scope c with
  | Some s => if Js.truthy s then s else "offline_access openid profile email"
  | None => "offline_access openid profile email"
  end.

(** A stored access token is a non-empty string and comes with a stored
    expiry number. *)
Definition token_inv (w : World) : Prop :=
  forall t, secure w !! KEY_ACCESS_TOKEN = Some t ->
    t <> "" /\ exists n, settings w !! KEY_ACCESS_TOKEN_EXPIRE = Some (SNumber n).

(** The device's time zone keeps one offset, [c]. *)
Definition fixed_offset (env : Env) (c : Z) : Prop :=
  forall t isUTC, localTZA env t isUTC = c.

(** [m] keeps the property [P] of the world, however it ends. *)
Definition keeps {A} (P : World -> Prop) (m : M A) : Prop :=
  forall w, P w -> P (snd (m w)).

(** [m] leaves both stores as they are, however it ends. *)
Definition stores_untouched {A} (m : M A) : Prop :=
  forall w, secure (snd (m w)) = secure w /\ settings (snd (m w)) = settings w.

(** ** Tactics *)

(** Unfolding the monad and the storage primitives. *)
Ltac run := cbv beta iota zeta delta [bind try_catch ret throw lift log elapse
  update_secure update_settings getSync setSync removeSync getNumber setNumber
  remove Date_now this_config this_verifier];
  cbn [fst snd secure settings now trace config verifier draws].

(** Case analysis on a scrutinee of the goal that holds no case analysis
    itself. *)
Ltac break_match :=
  match goal with
  | |- context [match ?x with _ => _ end] =>
      lazymatch x with
      | context [match _ with _ => _ end] => fail
      | _ => destruct x eqn:?
      end
  end.

(** ** Strings: auxiliary facts *)

Lemma length_app (s t : string) :
  String.length (s +:+ t) = (String.length s + String.length t)%nat.
Proof. induction s as [|a s IH]; simpl; [reflexivity | now rewrite IH]. Qed.

Lemma app_cons (a : ascii) (s t : string) : String a s +:+ t = String a (s +:+ t).
Proof. reflexivity. Qed.

Lemma app_nil_r_str (s : string) : s +:+ "" = s.
Proof. induction s as [|a s IH]; [reflexivity |]. rewrite app_cons. now f_equal. Qed.

Lemma app_assoc_str (s t u : string) : (s +:+ t) +:+ u = s +:+ (t +:+ u).
Proof.
  induction s as [|a s IH]; [reflexivity |].
  rewrite !app_cons. now f_equal.
Qed.

Lemma all_chars_app p (s t : string) :
  all_chars p (s +:+ t) = all_chars p s && all_chars p t.
Proof.
  induction s as [|a s IH]; simpl; [reflexivity |].
  rewrite IH. now rewrite andb_assoc.
Qed.

(** ** The verifier generator *)

Lemma random_index_range (r : Q) :
  (0 <= r)%Q -> (r < 1)%Q -> 0 <= random_index r < 62.
Proof.
  intros Hlo Hhi. unfold random_index.
  change (Z.of_nat (String.length possible)) with 62.
  split.
  - change 0 with (Qfloor (inject_Z 0)).
    apply Qfloor_resp_le.
    apply Qmult_le_0_compat; [exact Hlo | discriminate].
  - rewrite Zlt_Qlt.
    apply Qle_lt_trans with (r * inject_Z 62)%Q; [apply Qfloor_le |].
    apply Qlt_le_trans with (1 * inject_Z 62)%Q.
    + apply Qmult_lt_compat_r; [reflexivity | exact Hhi].
    + rewrite Qmult_1_l. apply Qle_refl.
Qed.

Lemma charAt_possible (k : Z) :
  0 <= k < 62 ->
  exists c, Js.charAt possible k = String c "" /\ is_alnum c = true.
Proof.
  intros [Hlo Hhi]. unfold Js.charAt.
  destruct (Z.ltb_spec k 0) as [Hneg | _]; [lia |].
  assert (Hn : (Z.to_nat k < 62)%nat) by lia.
  generalize dependent (Z.to_nat k). intros n Hn.
  do 62 (destruct n as [|n]; [eexists; split; reflexivity |]).
  lia.
Qed.

Lemma getRandomValues_loop_spec (random : nat -> Q) :
  (forall i, (0 <= random i)%Q /\ (random i < 1)%Q) ->
  forall todo draws bench,
    let out := fst (getRandomValues_loop random todo draws bench) in
    String.length out = (String.length bench + todo)%nat /\
    (all_chars is_alnum bench = true -> all_chars is_alnum out = true).
Proof.
  intros Hr todo. induction todo as [|todo IH]; intros draws bench; simpl.
  - split; [lia | tauto].
  - destruct (Hr draws) as [Hlo Hhi].
    destruct (charAt_possible _ (random_index_range _ Hlo Hhi)) as (c & Hc & Hal).
    rewrite Hc.
    destruct (IH (S draws) (bench +:+ String c "")) as [Hlen Hall].
    split.
    + rewrite Hlen, length_app. simpl. lia.
    + intros Hb. apply Hall. rewrite all_chars_app, Hb. simpl. now rewrite Hal.
Qed.

(** C4: with [Math.random] in [0, 1), [getRandomValues(n)] for an integer
    [n] with 43 <= n <= 128 is a string of exactly [n] characters, all of
    them in [A-Za-z0-9]; for every other integer [n] the string has 128
    characters. *)
Theorem getRandomValues_length_alphabet (random : nat -> Q) (n : Z) (draws : nat) :
  (forall i, (0 <= random i)%Q /\ (random i < 1)%Q) ->
  let out := fst (getRandomValues random (Some n) draws) in
  (43 <= n <= 128 ->
     Z.of_nat (String.length out) = n /\ all_chars is_alnum out = true) /\
  (~ 43 <= n <= 128 -> String.length out = 128%nat).
Proof.
  intros Hr out. subst out. unfold getRandomValues. split.
  - intros [H43 H128].
    destruct (Z.leb_spec 43 n); [| lia]. destruct (Z.leb_spec n 128); [| lia]. simpl.
    destruct (getRandomValues_loop_spec random Hr (Z.to_nat n) draws "") as [Hlen Hall].
    split; [rewrite Hlen; simpl; lia | now apply Hall].
  - intros Hout.
    assert (Hsize : (43 <=? n) && (n <=? 128) = false).
    { destruct (Z.leb_spec 43 n); destruct (Z.leb_spec n 128); simpl; try reflexivity; lia. }
    rewrite Hsize.
    destruct (getRandomValues_loop_spec random Hr (Z.to_nat 128) draws "") as [Hlen _].
    rewrite Hlen. reflexivity.
Qed.

(** ** The challenge *)

Lemma replace_all_app c r (s t : string) :
  Js.replace_all c r (s +:+ t) = Js.replace_all c r s +:+ Js.replace_all c r t.
Proof.
  induction s as [|a s IH]; simpl; [reflexivity |].
  rewrite IH. now rewrite app_assoc_str.
Qed.

Lemma replace_all_single c r (a : ascii) :
  Js.replace_all c r (String a "") = if Ascii.eqb a c then r else String a "".
Proof. cbn [Js.replace_all]. apply app_nil_r_str. Qed.

Lemma occurs_app c (s t : string) :
  Js.occurs c (s +:+ t) = Js.occurs c s || Js.occurs c t.
Proof.
  induction s as [|a s IH]; simpl; [reflexivity |].
  rewrite IH. now rewrite orb_assoc.
Qed.

Lemma three_replacements_url_safe (b : string) :
  Js.replace_all "=" "" (Js.replace_all "/" "_" (Js.replace_all "+" "-" b)) = url_safe b.
Proof.
  induction b as [|a b IH]; [reflexivity |].
  cbn [Js.replace_all url_safe].
  rewrite !replace_all_app, IH. f_equal.
  unfold url_safe_char.
  destruct (Ascii.eqb_spec a "+") as [-> | Hplus]; [reflexivity |].
  rewrite replace_all_single.
  destruct (Ascii.eqb_spec a "/") as [-> | Hslash]; [reflexivity |].
  rewrite replace_all_single.
  destruct (Ascii.eqb_spec a "=") as [-> | Heq]; reflexivity.
Qed.

Lemma url_safe_char_clean (a c : ascii) :
  c = "+"%char \/ c = "/"%char \/ c = "="%char ->
  Js.occurs c (url_safe_char a) = false.
Proof.
  intros Hc. unfold url_safe_char.
  destruct (Ascii.eqb_spec a "+") as [-> | Hplus];
    [destruct Hc as [-> | [-> | ->]]; reflexivity |].
  destruct (Ascii.eqb_spec a "/") as [-> | Hslash];
    [destruct Hc as [-> | [-> | ->]]; reflexivity |].
  destruct (Ascii.eqb_spec a "=") as [-> | Heq]; [reflexivity |].
  simpl. rewrite orb_false_r.
  destruct (Ascii.eqb_spec a c) as [-> | Hne]; [| reflexivity].
  destruct Hc as [-> | [-> | ->]]; congruence.
Qed.

Lemma url_safe_clean (b : string) (c : ascii) :
  c = "+"%char \/ c = "/"%char \/ c = "="%char ->
  Js.occurs c (url_safe b) = false.
Proof.
  intros Hc. induction b as [|a b IH]; [reflexivity |].
  simpl. rewrite occurs_app, IH, orb_false_r. now apply url_safe_char_clean.
Qed.

(** C9: the challenge of a verifier is the base64 text of its SHA-256
    digest with every [+] turned into [-], every [/] into [_] and every
    [=] removed; it is a function of the verifier alone and holds none of
    [+], [/] and [=]. *)
Theorem challenge_url_safe {WordArray : Type} (SHA256 : option string -> WordArray)
    (Base64_stringify : WordArray -> string) (verifier : string) :
  let c := challenge SHA256 Base64_stringify (Some verifier) in
  c = url_safe (Base64_stringify (SHA256 (Some verifier))) /\
  Js.occurs "+" c = false /\ Js.occurs "/" c = false /\ Js.occurs "=" c = false.
Proof.
  intros c. subst c. unfold challenge.
  rewrite three_replacements_url_safe.
  repeat split; apply url_safe_clean; auto.
Qed.

(** ** The token store *)

Lemma truthy_nonempty (s : string) : Js.truthy s = true <-> s <> "".
Proof. destruct s; simpl; split; congruence. Qed.

Lemma clearStorage_spec (w : World) :
  exists w',
    clearStorage w = (Ok tt, w') /\ keys_absent w' /\
    trace w' = EvNext (Some "") :: trace w.
Proof.
  unfold clearStorage, keys_absent. run. eexists. split; [reflexivity |].
  cbn [secure settings trace].
  repeat split;
    repeat (first [rewrite lookup_delete_eq | rewrite lookup_delete_ne by done]);
    reflexivity.
Qed.

Lemma storeAccessToken_skip (env : Env) (json : TokenJson) (w : World) :
  Js.truthy_opt (access_token json) = false ->
  storeAccessToken env (Some json) w = (Ok None, w).
Proof.
  intros Hfalsy. unfold storeAccessToken.
  destruct (access_token json) as [token |]; [| reflexivity].
  simpl in Hfalsy. now rewrite Hfalsy.
Qed.

(** What [storeAccessToken] writes is never the empty string. *)
Lemma storeAccessToken_nonempty (env : Env) (json : option TokenJson) (w : World) :
  (forall t, secure w !! KEY_ACCESS_TOKEN = Some t -> t <> "") ->
  forall t,
    secure (snd (storeAccessToken env json w)) !! KEY_ACCESS_TOKEN = Some t -> t <> "".
Proof.
  intros Hw t. unfold storeAccessToken.
  destruct json as [j |]; [| exact (Hw t)].
  destruct (access_token j) as [token |]; [| exact (Hw t)].
  destruct (Js.truthy token) eqn:Htoken; cbn [negb]; [| exact (Hw t)].
  run. rewrite lookup_insert_eq. intros [= <-]. now apply truthy_nonempty.
Qed.

(** C10: a token set without an access token (absent, or empty) makes
    [storeAccessToken] return at once, so after [setTokens] the stored
    access token is the one stored before, and so is the stored expiry,
    with all other settings. *)
Theorem setTokens_without_access_token (env : Env) (json : TokenJson) (w : World) :
  Js.truthy_opt (access_token json) = false ->
  storeAccessToken env (Some json) w = (Ok None, w) /\
  fst (setTokens env (Some json) w) = Ok tt /\
  secure (snd (setTokens env (Some json) w)) !! KEY_ACCESS_TOKEN
    = secure w !! KEY_ACCESS_TOKEN /\
  settings (snd (setTokens env (Some json) w)) !! KEY_ACCESS_TOKEN_EXPIRE
    = settings w !! KEY_ACCESS_TOKEN_EXPIRE /\
  settings (snd (setTokens env (Some json) w)) = settings w.
Proof.
  intros Hfalsy. split; [now apply storeAccessToken_skip |].
  unfold setTokens, storeRefreshToken.
  destruct (refresh_token json) as [refreshToken |];
    [destruct (Js.truthy refreshToken) |]; cbn [negb];
    cbv beta iota delta [bind ret setSync update_secure];
    rewrite (storeAccessToken_skip env json _ Hfalsy);
    cbn [fst snd secure settings];
    repeat split; try reflexivity.
  now rewrite lookup_insert_ne.
Qed.

Lemma getAccessToken_cases (env : Env) (w : World) :
  getAccessToken env false w =
    if Js.truthy_opt (secure w !! KEY_ACCESS_TOKEN) && number_truthy (stored_expiry w)
       && number_ge (stored_expiry w) (now w)
    then (Ok (secure w !! KEY_ACCESS_TOKEN), w)
    else refresh env w.
Proof.
  unfold getAccessToken, stored_expiry. run.
  match goal with |- (if ?c then _ else _) _ = _ => destruct c end; reflexivity.
Qed.

Lemma token_valid_test (w : World) :
  0 < now w ->
  token_valid w <->
  Js.truthy_opt (secure w !! KEY_ACCESS_TOKEN) && number_truthy (stored_expiry w)
    && number_ge (stored_expiry w) (now w) = true.
Proof.
  intros Hnow. unfold token_valid, stored_expiry. split.
  - intros (token & expiry & -> & Hne & -> & Hle). simpl.
    apply truthy_nonempty in Hne. rewrite Hne. simpl.
    destruct (Z.eqb_spec expiry 0) as [-> | _]; [lia |]. simpl.
    now apply Z.leb_le.
  - rewrite !andb_true_iff. intros [[Htok Hnum] Hge].
    destruct (secure w !! KEY_ACCESS_TOKEN) as [token |]; [| discriminate].
    destruct (settings w !! KEY_ACCESS_TOKEN_EXPIRE) as [[[expiry |] | |] |];
      try discriminate.
    exists token, expiry. repeat split; try reflexivity.
    + now apply truthy_nonempty.
    + now apply Z.leb_le.
Qed.




Lemma TimeClip_in_range (t : Z) :
  Z.abs t <= 8640000000000000 -> TimeClip t = Num t.
Proof. intros Ht. unfold TimeClip. now destruct (Z.leb_spec (Z.abs t) 8640000000000000); [| lia]. Qed.

(** In a time zone of one offset, within the range of [Date], the expiry
    is the instant [seconds] seconds later. *)
Lemma add_seconds_fixed_offset (env : Env) (c t k : Z) :
  fixed_offset env c ->
  Z.abs (t + 1000 * k) <= 8640000000000000 ->
  add_seconds (localTZA env) t (Some k) = Num (t + 1000 * k).
Proof.
  intros Hzone Hrange. unfold add_seconds. cbv zeta. rewrite !Hzone.
  replace (t + c + 1000 * k - c) with (t + 1000 * k) by lia.
  now apply TimeClip_in_range.
Qed.

(** On a device whose time zone keeps one offset, storing the token set
    [{access_token: "X", refresh_token: "Y", expires_in: 3600}] and
    calling [getAccessToken()] less than 3600 seconds later returns
    ["X"], without a refresh. *)
Lemma setTokens_then_getAccessToken_fixed_offset (env : Env) (w : World) (ms : nat)
    (c : Z) :
  fixed_offset env c ->
  0 <= now w -> now w + 3600000 <= 8640000000000000 ->
  (ms < 3600 * 1000)%nat ->
  let json := {| access_token := Some "X"; refresh_token := Some "Y";
                 expires_in := Some 3600 |} in
  exists w',
    (let* _ := setTokens env (Some json) in elapse ms) w = (Ok tt, w') /\
    getAccessToken env false w' = (Ok (Some "X"), w').
Proof.
  intros Hzone Hnow Hrange Hms json.
  exists {| config := config w; verifier := verifier w;
            secure := <[KEY_ACCESS_TOKEN := "X"]> (<[KEY_REFRESH_TOKEN := "Y"]> (secure w));
            settings := <[KEY_ACCESS_TOKEN_EXPIRE :=
                           SNumber (add_seconds (localTZA env) (now w) (Some 3600))]>
                          (settings w);
            now := now w + Z.of_nat ms; draws := draws w; trace := trace w |}.
  split; [reflexivity |].
  rewrite getAccessToken_cases. unfold stored_expiry. cbn [secure settings now].
  rewrite !lookup_insert_eq.
  rewrite (add_seconds_fixed_offset env c (now w) 3600 Hzone) by lia.
  cbn [Js.truthy_opt Js.truthy number_truthy number_ge andb].
  destruct (Z.eqb_spec (now w + 1000 * 3600) 0) as [H0 | _]; [lia |].
  destruct (Z.leb_spec (now w + Z.of_nat ms) (now w + 1000 * 3600)) as [_ | Hlt]; [| lia].
  reflexivity.
Qed.

(** C7: on a device in the time zone of Lord Howe Island, a quarter of an
    hour before its clocks go forward by half an hour, storing the token
    set [{access_token: "X", refresh_token: "Y", expires_in: 3600}] writes
    an expiry 1800 seconds after the current time, since the seconds are
    added to the local calendar time; [getAccessToken()] 2000 seconds
    after storing, with the token ["X"] still stored, does not return it:
    it takes the refresh path, which here fails with the network. *)
Theorem setTokens_then_getAccessToken_zone_change :
  exists w1,
    setTokens (Sample.env_lord_howe Sample.cancelled Sample.network_down)
      (Some Sample.tokens) Sample.before_change = (Ok tt, w1) /\
    now w1 = 1696086900000 /\
    secure w1 !! KEY_ACCESS_TOKEN = Some "X" /\
    settings w1 !! KEY_ACCESS_TOKEN_EXPIRE
      = Some (SNumber (Num (1696086900000 + 1800 * 1000))) /\
    fst (getAccessToken (Sample.env_lord_howe Sample.cancelled Sample.network_down) false
           {| config := config w1; verifier := verifier w1; secure := secure w1;
              settings := settings w1; now := now w1 + 2000 * 1000; draws := draws w1;
              trace := trace w1 |})
      = Throw (ExchangeError (Rejected "network")).
Proof.
  eexists. split; [vm_compute; reflexivity |].
  repeat split; vm_compute; reflexivity.
Qed.

(** ** Query strings: splitting what was joined *)

Lemma split_from_prefix (c : ascii) (p rest : string) (cur : list ascii) :
  Js.occurs c p = false ->
  Js.split_from c cur (p +:+ rest)
    = Js.split_from c (rev (list_ascii_of_string p) ++ cur) rest.
Proof.
  revert cur. induction p as [|a p IH]; intros cur Hp; [reflexivity |].
  simpl in Hp. apply orb_false_iff in Hp as [Ha Hp].
  rewrite app_cons. cbn [Js.split_from list_ascii_of_string rev]. rewrite Ha.
  rewrite IH by exact Hp. now rewrite <- List.app_assoc.
Qed.

Lemma split_join (c : ascii) (parts : list string) :
  parts <> [] ->
  Forall (fun p => Js.occurs c p = false) parts ->
  Js.split c (Js.join (String c "") parts) = parts.
Proof.
  unfold Js.split. induction parts as [|p ps IH]; intros Hne Hall; [congruence |].
  inversion Hall as [|? ? Hp Hps]; subst.
  destruct ps as [|q ps].
  - cbn [Js.join]. rewrite <- (app_nil_r_str p) at 1.
    rewrite split_from_prefix by exact Hp. cbn [Js.split_from].
    rewrite List.app_nil_r, rev_involutive. now rewrite string_of_list_ascii_of_string.
  - cbn [Js.join]. rewrite split_from_prefix by exact Hp.
    rewrite app_cons. cbn [Js.split_from].
    destruct (Ascii.eqb_spec c c) as [_ | Hcc]; [| congruence].
    rewrite List.app_nil_r, rev_involutive, string_of_list_ascii_of_string.
    f_equal. now apply IH.
Qed.

Lemma cut_at_prefix (c : ascii) (k v : string) :
  Js.occurs c k = false ->
  cut_at c (k +:+ String c v) = (k, v).
Proof.
  induction k as [|a k IH]; intros Hk.
  - change ("" +:+ String c v) with (String c v). cbn [cut_at].
    destruct (Ascii.eqb_spec c c); congruence.
  - simpl in Hk. apply orb_false_iff in Hk as [Ha Hk].
    rewrite app_cons. cbn [cut_at]. rewrite Ha, IH by exact Hk. reflexivity.
Qed.

(** [encodeURIComponent] writes neither [&] nor [=]. *)
Lemma encode_char_clean (a c : ascii) :
  c = "&"%char \/ c = "="%char -> Js.occurs c (encode_char a) = false.
Proof.
  intros [-> | ->];
    destruct a as [[] [] [] [] [] [] [] []]; reflexivity.
Qed.

Lemma encodeURIComponent_clean (s : string) (c : ascii) :
  c = "&"%char \/ c = "="%char -> Js.occurs c (encodeURIComponent s) = false.
Proof.
  intros Hc. induction s as [|a s IH]; [reflexivity |].
  cbn [encodeURIComponent]. rewrite occurs_app, IH, orb_false_r.
  now apply encode_char_clean.
Qed.

Lemma key_value_clean (key value : string) :
  Js.occurs "&" (key_value key value) = false.
Proof.
  unfold key_value. rewrite !occurs_app, !encodeURIComponent_clean by auto.
  reflexivity.
Qed.

Lemma cut_at_key_value (key value : string) :
  cut_at "=" (key_value key value) = (encodeURIComponent key, encodeURIComponent value).
Proof.
  unfold key_value. apply cut_at_prefix. apply encodeURIComponent_clean. auto.
Qed.

(** A query of plain string parameters reads back as its encoded pairs. *)
Lemma query_pairs_strings (kvs : list (string * string)) :
  kvs <> [] ->
  query_pairs (objectToQueryParams (map (fun kv => (fst kv, PString (snd kv))) kvs))
    = map (fun kv => (encodeURIComponent (fst kv), encodeURIComponent (snd kv))) kvs.
Proof.
  intros Hne. unfold objectToQueryParams.
  assert (Hfilter : List.filter is_valid_param
                      (map (fun kv => (fst kv, PString (snd kv))) kvs)
                    = map (fun kv => (fst kv, PString (snd kv))) kvs).
  { clear Hne. induction kvs as [|kv kvs IH]; [reflexivity |].
    cbn [map List.filter is_valid_param snd]. now rewrite IH. }
  rewrite Hfilter, List.length_map.
  destruct kvs as [|kv kvs]; [congruence |].
  cbn [List.length Nat.eqb]. set (l := kv :: kvs).
  change ("?" +:+ ?q) with (String "?" q). cbn [query_pairs].
  rewrite split_join.
  - rewrite !List.map_map. apply map_ext. intros [k v]. apply cut_at_key_value.
  - subst l. discriminate.
  - apply List.Forall_forall. intros p Hp. rewrite List.map_map in Hp.
    apply in_map_iff in Hp as ([k v] & <- & _). apply key_value_clean.
Qed.

(** ** Building the authorize and logout URLs *)

Lemma missing_falsy (o : option string) : missing o <-> Js.truthy_opt o = false.
Proof.
  unfold missing. destruct o as [[|a s] |]; simpl; split; intros H;
    try reflexivity; try discriminate; auto.
  destruct H; discriminate.
Qed.

(** C5: with a configuration set, [prepareSignInAuthUrl] throws the
    missing-fields error whenever [audience], [clientId] or [redirectUri]
    is absent or empty, and [prepareLogOutAuthUrl] whenever [clientId] or
    [redirectUri] is; all that either did before is one [console.error]:
    no browser and no HTTP call. *)
Theorem prepare_urls_ConfigError {WordArray : Type} (SHA256 : option string -> WordArray)
    (Base64_stringify : WordArray -> string) (w : World) (cfg : Config)
    (loginHint connection screenHint : option string) :
  config w = Some cfg ->
  let c := auth0Config cfg in
  (missing (audience c) \/ missing (clientId c) \/ missing (redirectUri c) ->
   exists w' message,
     prepareSignInAuthUrl SHA256 Base64_stringify loginHint connection screenHint w
       = (Throw ConfigError, w') /\
     trace w' = EvConsoleError message :: trace w /\
     secure w' = secure w /\ settings w' = settings w) /\
  (missing (clientId c) \/ missing (redirectUri c) ->
   exists w' message,
     prepareLogOutAuthUrl w = (Throw ConfigError, w') /\
     trace w' = EvConsoleError message :: trace w /\
     secure w' = secure w /\ settings w' = settings w).
Proof.
  intros Hcfg c. split.
  - intros Hmiss.
    assert (Htest : negb (Js.truthy_opt (audience c)) || negb (Js.truthy_opt (clientId c))
                    || negb (Js.truthy_opt (redirectUri c)) = true).
    { rewrite !missing_falsy in Hmiss.
      destruct Hmiss as [-> | [-> | ->]]; simpl; rewrite ?orb_true_r; reflexivity. }
    unfold prepareSignInAuthUrl. run. rewrite Hcfg. fold c. rewrite Htest.
    do 2 eexists. repeat split.
  - intros Hmiss.
    assert (Htest : negb (Js.truthy_opt (clientId c)) || negb (Js.truthy_opt (redirectUri c))
                    = true).
    { rewrite !missing_falsy in Hmiss.
      destruct Hmiss as [-> | ->]; simpl; rewrite ?orb_true_r; reflexivity. }
    unfold prepareLogOutAuthUrl. run. rewrite Hcfg. fold c. rewrite Htest.
    do 2 eexists. repeat split.
Qed.

Lemma objectToQueryParams_valid (p q : list (string * ParamValue)) :
  List.filter is_valid_param p = q ->
  List.filter is_valid_param q = q ->
  objectToQueryParams p = objectToQueryParams q.
Proof. intros Hp Hq. unfold objectToQueryParams. now rewrite Hp, Hq. Qed.

Lemma truthy_opt_some (o : option string) :
  Js.truthy_opt o = true -> exists s, o = Some s /\ Js.truthy s = true.
Proof. destruct o as [s |]; [eauto | discriminate]. Qed.

(** C8: for a configuration with non-empty [audience], [clientId] and
    [redirectUri], [prepareSignInAuthUrl()] without hints succeeds with
    [https://{domain}/authorize] followed by a query that reads back with
    [response_type=code] and [code_challenge_method=S256] among its pairs
    and with no pair whose key is [login_hint], [connection] or
    [screen_hint]. *)
Theorem authorize_url_without_hints {WordArray : Type} (SHA256 : option string -> WordArray)
    (Base64_stringify : WordArray -> string) (w : World) (cfg : Config) :
  config w = Some cfg ->
  let c := auth0Config cfg in
  Js.truthy_opt (audience c) = true ->
  Js.truthy_opt (clientId c) = true ->
  Js.truthy_opt (redirectUri c) = true ->
  exists query,
    prepareSignInAuthUrl SHA256 Base64_stringify None None None w
      = (Ok ("https://" +:+ Js.show (domain c) +:+ "/authorize" +:+ query), w) /\
    In ("response_type", "code") (query_pairs query) /\
    In ("code_challenge_method", "S256") (query_pairs query) /\
    forall k v, In (k, v) (query_pairs query) ->
      k <> "login_hint" /\ k <> "connection" /\ k <> "screen_hint".
Proof.
  intros Hcfg c Haud Hcli Hred.
  unfold prepareSignInAuthUrl. run. rewrite Hcfg. fold c.
  rewrite Haud, Hcli, Hred. cbn [negb orb].
  eexists. split; [reflexivity |].
  apply truthy_opt_some in Haud as (a & Ha & _).
  apply truthy_opt_some in Hcli as (i & Hi & _).
  apply truthy_opt_some in Hred as (r & Hr & _).
  assert (Hscope : exists s,
    Js.or_else (scope c) (Some "offline_access openid profile email") = Some s).
  { unfold Js.or_else. destruct (Js.truthy_opt (scope c)) eqn:Hs; [| eauto].
    apply truthy_opt_some in Hs as (s & Hs & _). eauto. }
  destruct Hscope as (s & Hs).
  set (ch := challenge SHA256 Base64_stringify (verifier w)).
  rewrite (objectToQueryParams_valid _
    (map (fun kv => (fst kv, PString (snd kv)))
       [ ("audience", a); ("scope", s); ("response_type", "code"); ("client_id", i);
         ("redirect_uri", r); ("code_challenge", ch); ("code_challenge_method", "S256") ]));
    [| unfold signIn_params; rewrite Ha, Hi, Hr, Hs; reflexivity | reflexivity].
  rewrite query_pairs_strings by discriminate.
  cbn [map fst snd].
  split; [do 2 right; left; reflexivity |].
  split; [do 6 right; left; reflexivity |].
  intros k v Hin.
  destruct Hin as [Hin | [Hin | [Hin | [Hin | [Hin | [Hin | [Hin | []]]]]]]];
    injection Hin as <- _; repeat split; discriminate.
Qed.

(** ** The code of a callback URL *)

Lemma string_of_list_ascii_snoc (l : list ascii) (a : ascii) (s : string) :
  string_of_list_ascii (l ++ [a]) +:+ s = string_of_list_ascii l +:+ String a s.
Proof.
  induction l as [|b l IH]; [reflexivity |].
  cbn [List.app string_of_list_ascii]. rewrite !app_cons. now f_equal.
Qed.

Lemma before_first_cons (c a : ascii) (s : string) :
  before_first c (String a s) = if Ascii.eqb a c then "" else String a (before_first c s).
Proof.
  unfold before_first. cbn [cut_at].
  destruct (Ascii.eqb a c); [reflexivity |]. now destruct (cut_at c s).
Qed.

Lemma split_from_first (c : ascii) (s : string) (cur : list ascii) :
  Js.split_from c cur s =
    (string_of_list_ascii (rev cur) +:+ before_first c s)
    :: match after_first c s with
       | Some rest => Js.split_from c [] rest
       | None => []
       end.
Proof.
  revert cur. induction s as [|a s IH]; intros cur.
  - cbn. now rewrite app_nil_r_str.
  - cbn [Js.split_from after_first]. rewrite before_first_cons.
    destruct (Ascii.eqb a c).
    + now rewrite app_nil_r_str.
    + rewrite IH. cbn [rev]. now rewrite string_of_list_ascii_snoc.
Qed.

Lemma before_first_all (c : ascii) (s : string) :
  Js.occurs c s = false -> before_first c s = s.
Proof.
  induction s as [|a s IH]; intros Hs; [reflexivity |].
  simpl in Hs. apply orb_false_iff in Hs as [Ha Hs].
  rewrite before_first_cons, Ha. now rewrite IH.
Qed.

(** [split('=')[1]] is the text between the first [=] and the next. *)
Lemma code_of_url_between (u : string) :
  code_of_url u =
    match after_first "=" u with
    | Some rest => CodeString (before_first "=" rest)
    | None => CodeUndefined
    end.
Proof.
  unfold code_of_url, Js.split. rewrite split_from_first. cbn [nth_error].
  destruct (after_first "=" u) as [rest |]; [| reflexivity].
  rewrite split_from_first. reflexivity.
Qed.

(** What [split('=')[1]] makes of a callback: when
    [fetchCodeInAppBrowser] returns, its last act was a browser call that
    answered, and if that answer is a
    success carrying a non-empty URL, the code is the text between the
    first [=] of the URL and the next [=] (up to the end of the URL when
    there is no other); so it is the whole substring after the first [=]
    when that substring holds no [=], and it is undefined for a URL
    without [=]. *)
Theorem fetchCode_between_equals {WordArray : Type} (SHA256 : option string -> WordArray)
    (Base64_stringify : WordArray -> string) (env : Env) (authorizeUrl : string)
    (w w' : World) (code : Code) :
  fetchCodeInAppBrowser SHA256 Base64_stringify env authorizeUrl w = (Ok code, w') ->
  exists url returnUrl options reply earlier,
    trace w' = EvOpenAuth url returnUrl options (Ok reply) :: earlier /\
    forall u, res_type reply = success -> res_url reply = Some u -> u <> "" ->
      code = match after_first "=" u with
             | Some rest => CodeString (before_first "=" rest)
             | None => CodeUndefined
             end /\
      (forall rest, after_first "=" u = Some rest -> Js.occurs "=" rest = false ->
         code = CodeString rest).
Proof.
  unfold fetchCodeInAppBrowser, InAppBrowser_openAuth, await, prepareSignInAuthUrl.
  run. repeat (break_match; run); intros Hrun; try discriminate;
    injection Hrun as <- <-; cbn [trace]; do 5 eexists;
    (split; [reflexivity |]); intros u Hty Hu Hne;
    try congruence;
    try (assert (Js.truthy u = true) by (now apply truthy_nonempty); congruence).
  all: match goal with
       | Hs : Js.truthy ?s = true |- _ => replace u with s in * by congruence
       end.
  all: rewrite code_of_url_between; split; [reflexivity |].
  all: intros rest -> Hrest; now rewrite before_first_all.
Qed.

(** C3: when the browser answers success with the callback URL
    [app://cb?code=abc&state=xyz], whose substring after the first [=] is
    [abc&state=xyz], [fetchCodeInAppBrowser] returns [abc&state]: the
    split cuts the code at the second [=]. *)
Lemma fetchCode_second_equals_cut :
  trace (snd (fetchCodeInAppBrowser Sample.SHA256 Sample.Base64_stringify
                (Sample.env (Sample.callback Sample.two_equals) Sample.token_response)
                "https://t.auth0.com/authorize" Sample.fresh))
    = [EvOpenAuth "https://t.auth0.com/authorize" (Some "app://cb") None
         (Sample.callback Sample.two_equals)] /\
  fst (fetchCodeInAppBrowser Sample.SHA256 Sample.Base64_stringify
         (Sample.env (Sample.callback Sample.two_equals) Sample.token_response)
         "https://t.auth0.com/authorize" Sample.fresh)
    = Ok (CodeString "abc&state") /\
  after_first "=" Sample.two_equals = Some "abc&state=xyz" /\
  CodeString "abc&state" <> CodeString "abc&state=xyz".
Proof. repeat split. discriminate. Qed.

(** ** Sign-in and log-out *)

(** C1: a [signIn] that fails has cleared the five storage keys, and what
    it throws is the sign-in error wrapping the cause. *)
Theorem signIn_failure_clears {WordArray : Type} (SHA256 : option string -> WordArray)
    (Base64_stringify : WordArray -> string) (env : Env)
    (loginHint connection : option string) (w w' : World) (e : Error) :
  signIn SHA256 Base64_stringify env loginHint connection w = (Throw e, w') ->
  keys_absent w' /\ exists cause, e = SignInError cause.
Proof.
  unfold signIn, try_catch.
  match goal with |- context [let (_, _) := ?body w in _] => destruct (body w) as [[b | c] w1] end.
  - discriminate.
  - unfold bind, throw. destruct (clearStorage_spec w1) as (w2 & -> & Habs & _).
    intros Hrun. injection Hrun as <- <-. eauto.
Qed.

(** C6: when the logout URL can be built and the in-app browser is
    available, [logOut] opens the browser on that URL, with the redirect
    URI and the browser configuration; if the browser then answers
    [cancel], [logOut] returns [false] with both stores as they were, and
    if it answers [success], [logOut] has removed the five storage keys
    and returns [true]. *)
Theorem logOut_cancel_or_success (env : Env) (w : World) (cfg : Config) (url : string)
    (reply : AuthSessionResult) :
  config w = Some cfg ->
  prepareLogOutAuthUrl w = (Ok url, w) ->
  isAvailable env w = Ok true ->
  openAuth env (snd (InAppBrowser_isAvailable env w)) url
    (redirectUri (auth0Config cfg)) (Some (browserConfig cfg)) = Ok reply ->
  (res_type reply = cancel ->
   exists w',
     logOut env w = (Ok false, w') /\
     secure w' = secure w /\ settings w' = settings w) /\
  (res_type reply = success ->
   exists w', logOut env w = (Ok true, w') /\ keys_absent w').
Proof.
  intros Hcfg Hurl Havail Hreply.
  unfold InAppBrowser_isAvailable, await in Hreply. revert Hreply. run.
  rewrite Havail. run. intros Hreply.
  unfold logOut, InAppBrowser_isAvailable, InAppBrowser_openAuth, await.
  run. rewrite Hcfg. run. unfold bind in Hurl. rewrite Hurl. run.
  rewrite Havail. run. rewrite Hreply. run.
  split; intros Hty; rewrite Hty; run.
  - eexists. repeat split.
  - match goal with
    | |- context [clearStorage ?x] =>
        destruct (clearStorage_spec x) as (w' & -> & Habs & _)
    end.
    exists w'. split; [reflexivity | exact Habs].
Qed.

(** ** The theorems at work on the sample device *)

Lemma getRandomValues_length_alphabet_witness :
  (forall i : nat, (0 <= 1 # 2)%Q /\ (1 # 2 < 1)%Q) /\
  Z.of_nat (String.length (fst (getRandomValues (fun _ => 1 # 2) (Some 43) 0))) = 43 /\
  all_chars is_alnum (fst (getRandomValues (fun _ => 1 # 2) (Some 43) 0)) = true.
Proof.
  assert (Hr : forall i : nat, (0 <= 1 # 2)%Q /\ (1 # 2 < 1)%Q).
  { intros _. split; [discriminate | reflexivity]. }
  split; [exact Hr |].
  apply (getRandomValues_length_alphabet (fun _ => 1 # 2) 43 0 Hr). lia.
Defined.

Lemma setTokens_without_access_token_witness :
  Js.truthy_opt (access_token Sample.refresh_only) = false /\
  secure (snd (setTokens (Sample.env Sample.cancelled Sample.network_down)
                 (Some Sample.refresh_only) Sample.signed_in)) !! KEY_ACCESS_TOKEN
    = Some "A" /\
  settings (snd (setTokens (Sample.env Sample.cancelled Sample.network_down)
                   (Some Sample.refresh_only) Sample.signed_in))
    = settings Sample.signed_in.
Proof.
  split; [reflexivity |].
  destruct (setTokens_without_access_token
              (Sample.env Sample.cancelled Sample.network_down)
              Sample.refresh_only Sample.signed_in eq_refl)
    as (_ & _ & Hsec & _ & Hset).
  split; [rewrite Hsec; reflexivity | exact Hset].
Defined.


Lemma prepare_urls_ConfigError_witness :
  config Sample.no_audience
    = Some {| auth0Config :=
                {| domain := Some "t.auth0.com"; clientId := Some "c";
                   audience := Some ""; redirectUri := Some "app://cb"; scope := None |};
              browserConfig := "{}" |} /\
  exists w' message,
    prepareSignInAuthUrl Sample.SHA256 Sample.Base64_stringify None None None
      Sample.no_audience = (Throw ConfigError, w') /\
    trace w' = EvConsoleError message :: trace Sample.no_audience /\
    secure w' = secure Sample.no_audience /\ settings w' = settings Sample.no_audience.
Proof.
  split; [reflexivity |].
  apply (prepare_urls_ConfigError Sample.SHA256 Sample.Base64_stringify
           Sample.no_audience _ None None None eq_refl).
  left. right. reflexivity.
Defined.

Lemma authorize_url_without_hints_witness :
  config Sample.fresh = Some Sample.cfg /\
  exists query,
    prepareSignInAuthUrl Sample.SHA256 Sample.Base64_stringify None None None Sample.fresh
      = (Ok ("https://" +:+ "t.auth0.com" +:+ "/authorize" +:+ query), Sample.fresh) /\
    In ("response_type", "code") (query_pairs query) /\
    In ("code_challenge_method", "S256") (query_pairs query) /\
    forall k v, In (k, v) (query_pairs query) ->
      k <> "login_hint" /\ k <> "connection" /\ k <> "screen_hint".
Proof.
  split; [reflexivity |].
  apply (authorize_url_without_hints Sample.SHA256 Sample.Base64_stringify
           Sample.fresh Sample.cfg eq_refl eq_refl eq_refl eq_refl).
Defined.

Lemma fetchCode_between_equals_witness :
  fetchCodeInAppBrowser Sample.SHA256 Sample.Base64_stringify
    (Sample.env (Sample.callback Sample.two_equals) Sample.token_response)
    "https://t.auth0.com/authorize" Sample.fresh
  = (Ok (CodeString "abc&state"),
     snd (fetchCodeInAppBrowser Sample.SHA256 Sample.Base64_stringify
            (Sample.env (Sample.callback Sample.two_equals) Sample.token_response)
            "https://t.auth0.com/authorize" Sample.fresh)) /\
  exists url returnUrl options reply earlier,
    trace (snd (fetchCodeInAppBrowser Sample.SHA256 Sample.Base64_stringify
                  (Sample.env (Sample.callback Sample.two_equals) Sample.token_response)
                  "https://t.auth0.com/authorize" Sample.fresh))
      = EvOpenAuth url returnUrl options (Ok reply) :: earlier.
Proof.
  split; [reflexivity |].
  destruct (fetchCode_between_equals Sample.SHA256 Sample.Base64_stringify
              (Sample.env (Sample.callback Sample.two_equals) Sample.token_response)
              "https://t.auth0.com/authorize" Sample.fresh _ _ eq_refl)
    as (url & returnUrl & options & reply & earlier & Htrace & _).
  exists url, returnUrl, options, reply, earlier. exact Htrace.
Defined.

Lemma signIn_failure_clears_witness :
  exists w',
    signIn Sample.SHA256 Sample.Base64_stringify
      (Sample.env (Sample.callback Sample.two_equals) Sample.network_down)
      None None Sample.signed_in
    = (Throw (SignInError (Rejected "network")), w') /\
    keys_absent w'.
Proof.
  eexists. split; [vm_compute; reflexivity |].
  apply (signIn_failure_clears Sample.SHA256 Sample.Base64_stringify
           (Sample.env (Sample.callback Sample.two_equals) Sample.network_down)
           None None Sample.signed_in _ (SignInError (Rejected "network"))).
  vm_compute. reflexivity.
Defined.

Lemma logOut_cancel_or_success_witness :
  (exists w',
     logOut (Sample.env Sample.cancelled Sample.network_down) Sample.signed_in
       = (Ok false, w') /\
     secure w' = secure Sample.signed_in /\ settings w' = settings Sample.signed_in) /\
  (exists w',
     logOut (Sample.env (Sample.callback "app://cb") Sample.network_down) Sample.signed_in
       = (Ok true, w') /\
     keys_absent w').
Proof.
  split.
  - apply (logOut_cancel_or_success (Sample.env Sample.cancelled Sample.network_down)
             Sample.signed_in Sample.cfg
             "https://t.auth0.com/v2/logout?client_id=c&returnTo=app%3A%2F%2Fcb"
             {| res_type := cancel; res_url := None |} eq_refl eq_refl eq_refl eq_refl).
    reflexivity.
  - apply (logOut_cancel_or_success
             (Sample.env (Sample.callback "app://cb") Sample.network_down)
             Sample.signed_in Sample.cfg
             "https://t.auth0.com/v2/logout?client_id=c&returnTo=app%3A%2F%2Fcb"
             {| res_type := success; res_url := Some "app://cb" |}
             eq_refl eq_refl eq_refl eq_refl).
    reflexivity.
Defined.

(** ** Further properties: query strings *)

Lemma percent_decode_encode_char (a : ascii) (t : string) :
  percent_decode (encode_char a +:+ t) = String a (percent_decode t).
Proof. destruct a as [[] [] [] [] [] [] [] []]; reflexivity. Qed.

Lemma percent_decode_encode (s : string) :
  percent_decode (encodeURIComponent s) = s.
Proof.
  induction s as [|a s IH]; [reflexivity |].
  cbn [encodeURIComponent]. rewrite percent_decode_encode_char. now f_equal.
Qed.

Lemma join_app (sep : string) (l1 l2 : list string) :
  l1 <> [] -> l2 <> [] ->
  Js.join sep (l1 ++ l2)%list = Js.join sep l1 +:+ sep +:+ Js.join sep l2.
Proof.
  intros H1 H2. induction l1 as [|p l1 IH]; [congruence |].
  destruct l1 as [|q l1].
  - destruct l2 as [|r l2]; [congruence | reflexivity].
  - change (Js.join sep ((p :: q :: l1) ++ l2)%list)
      with (p +:+ sep +:+ Js.join sep ((q :: l1) ++ l2)%list).
    rewrite IH by discriminate.
    change (Js.join sep (p :: q :: l1)) with (p +:+ sep +:+ Js.join sep (q :: l1)).
    now rewrite !app_assoc_str.
Qed.

Lemma join_concat (sep : string) (lss : list (list string)) :
  Forall (fun l => l <> []) lss ->
  Js.join sep (map (Js.join sep) lss) = Js.join sep (concat lss).
Proof.
  induction lss as [|l lss IH]; intros Hall; [reflexivity |].
  inversion Hall as [|? ? Hl Hlss]; subst.
  destruct lss as [|l2 lss].
  - cbn [map concat Js.join]. now rewrite List.app_nil_r.
  - change (Js.join sep (map (Js.join sep) (l :: l2 :: lss)))
      with (Js.join sep l +:+ sep +:+ Js.join sep (map (Js.join sep) (l2 :: lss))).
    rewrite IH by exact Hlss.
    change (concat (l :: l2 :: lss)) with (l ++ concat (l2 :: lss))%list.
    rewrite join_app; [reflexivity | exact Hl |].
    inversion Hlss as [|? ? Hl2 _]; subst.
    cbn [concat]. destruct l2; [congruence | discriminate].
Qed.

Lemma render_param_pairs (kv : string * ParamValue) :
  is_valid_param kv = true ->
  render_param kv
    = Js.join "&" (map (fun p => key_value (fst p) (snd p)) (param_pairs kv)).
Proof.
  destruct kv as [k [| | s | items | json]]; intros Hvalid; try discriminate;
    try reflexivity.
  unfold render_param, param_pairs. cbn [fst snd]. now rewrite List.map_map.
Qed.

Lemma flat_map_valid (params : list (string * ParamValue)) :
  flat_map param_pairs (List.filter is_valid_param params) = flat_map param_pairs params.
Proof.
  induction params as [|[k v] params IH]; [reflexivity |].
  cbn [List.filter flat_map]. destruct v; cbn [is_valid_param snd flat_map];
    rewrite IH; reflexivity.
Qed.

(** Reading the query back gives the parameters the record stands for. *)
Lemma decoded_pairs_query (params : list (string * ParamValue)) :
  (forall k, ~ In (k, PArray []) params) ->
  decoded_pairs (objectToQueryParams params) = flat_map param_pairs params.
Proof.
  intros Hitems. rewrite <- flat_map_valid. unfold objectToQueryParams.
  assert (Hvalid : Forall (fun kv => is_valid_param kv = true /\ param_pairs kv <> [])
                     (List.filter is_valid_param params)).
  { apply List.Forall_forall. intros [k v] Hin. apply filter_In in Hin as [Hin Hv].
    split; [exact Hv |]. destruct v as [| | s | [|i items] | json]; try discriminate.
    now apply Hitems in Hin. }
  set (valid := List.filter is_valid_param params) in *.
  destruct valid as [|kv valid]; [reflexivity |].
  cbn [List.length Nat.eqb]. set (l := kv :: valid) in *.
  assert (Hjoin : Js.join "&" (map render_param l)
                  = Js.join "&" (map (fun p => key_value (fst p) (snd p))
                                   (flat_map param_pairs l))).
  { rewrite flat_map_concat_map, concat_map, <- join_concat.
    - f_equal. rewrite !List.map_map. apply map_ext_in. intros a Ha.
      apply render_param_pairs.
      now apply (proj1 (List.Forall_forall _ _) Hvalid a Ha).
    - apply List.Forall_forall. intros x Hx. rewrite List.map_map in Hx.
      apply in_map_iff in Hx as (a & <- & Ha).
      destruct (proj1 (List.Forall_forall _ _) Hvalid a Ha) as [_ Hne].
      destruct (param_pairs a); [congruence | discriminate]. }
  rewrite Hjoin.
  assert (Hne : flat_map param_pairs l <> []).
  { subst l. cbn [flat_map]. inversion Hvalid as [|? ? [_ Hkv] _]; subst.
    destruct (param_pairs kv); [congruence | discriminate]. }
  unfold decoded_pairs. change ("?" +:+ ?q) with (String "?" q). cbn [query_pairs].
  rewrite split_join.
  - rewrite !List.map_map. rewrite <- (List.map_id (flat_map param_pairs l)) at 2.
    apply map_ext. intros [k v]. rewrite cut_at_key_value. cbn [fst snd].
    now rewrite !percent_decode_encode.
  - destruct (flat_map param_pairs l); [congruence | discriminate].
  - apply List.Forall_forall. intros p Hp.
    apply in_map_iff in Hp as ([k v] & <- & _). apply key_value_clean.
Qed.

(** X1: reading back the query that [objectToQueryParams] writes
    (splitting at [&] and at the first [=], then percent-decoding) gives
    the parameters in their order: one pair for a string or object value,
    one pair with the same key for each item of an array, and nothing for
    [null] and [undefined]; this for every record without an empty
    array. *)
Theorem objectToQueryParams_round_trip (params : list (string * ParamValue)) :
  (forall k, ~ In (k, PArray []) params) ->
  decoded_pairs (objectToQueryParams params) = flat_map param_pairs params.
Proof. exact (decoded_pairs_query params). Qed.

(** X2: [objectToQueryParams] gives the empty string, without a [?],
    exactly when every value of the record is [null] or [undefined]. *)
Theorem objectToQueryParams_empty (params : list (string * ParamValue)) :
  objectToQueryParams params = "" <->
  Forall (fun kv => snd kv = PNull \/ snd kv = PUndefined) params.
Proof.
  unfold objectToQueryParams. split.
  - intros Hq. apply List.Forall_forall. intros [k v] Hin.
    destruct (List.filter is_valid_param params) as [|x l] eqn:Hf;
      [| discriminate Hq].
    destruct v; auto;
      assert (Hx : In (k, _) (List.filter is_valid_param params))
        by (apply filter_In; split; [exact Hin | reflexivity]);
      rewrite Hf in Hx; destruct Hx.
  - intros Hall.
    assert (Hf : List.filter is_valid_param params = []).
    { induction params as [|[k v] params IH]; [reflexivity |].
      inversion Hall as [|? ? Hv Hrest]; subst. cbn [List.filter is_valid_param snd].
      cbn [snd] in Hv. destruct Hv as [-> | ->]; now apply IH. }
    now rewrite Hf.
Qed.

(** ** Further properties: the URLs *)

Lemma param_pairs_or_null (key : string) (hint : option string) :
  param_pairs (key, param_or_null hint) = hint_pair key hint.
Proof. destruct hint as [h |]; [| reflexivity]. simpl. now destruct (Js.truthy h). Qed.

Lemma param_or_null_no_array (key k : string) (hint : option string) :
  (key, param_or_null hint) <> (k, PArray []).
Proof. destruct hint as [h |]; simpl; [destruct (Js.truthy h) |]; congruence. Qed.

Lemma prepareSignInAuthUrl_pairs {WordArray : Type} (SHA256 : option string -> WordArray)
    (Base64_stringify : WordArray -> string) (w : World) (cfg : Config)
    (loginHint connection screenHint : option string) (a i r : string) :
  config w = Some cfg ->
  audience (auth0Config cfg) = Some a -> a <> "" ->
  clientId (auth0Config cfg) = Some i -> i <> "" ->
  redirectUri (auth0Config cfg) = Some r -> r <> "" ->
  exists query,
    prepareSignInAuthUrl SHA256 Base64_stringify loginHint connection screenHint w
      = (Ok ("https://" +:+ Js.show (domain (auth0Config cfg)) +:+ "/authorize" +:+ query),
         w) /\
    decoded_pairs query
      = ([ ("audience", a); ("scope", scope_sent (auth0Config cfg));
           ("response_type", "code"); ("client_id", i); ("redirect_uri", r);
           ("code_challenge", challenge SHA256 Base64_stringify (verifier w));
           ("code_challenge_method", "S256") ]
         ++ hint_pair "login_hint" loginHint
         ++ hint_pair "connection" connection
         ++ hint_pair "screen_hint" screenHint)%list.
Proof.
  intros Hcfg Ha Hane Hi Hine Hr Hrne.
  apply truthy_nonempty in Hane, Hine, Hrne.
  unfold prepareSignInAuthUrl. run. rewrite Hcfg, Ha, Hi, Hr.
  cbn [Js.truthy_opt]. rewrite Hane, Hine, Hrne. cbn [negb orb].
  eexists. split; [reflexivity |].
  rewrite decoded_pairs_query.
  - unfold signIn_params. cbn [flat_map]. rewrite !param_pairs_or_null.
    rewrite List.app_nil_r, Ha, Hi, Hr. unfold scope_sent, Js.or_else.
    destruct (scope (auth0Config cfg)) as [s |]; cbn [Js.truthy_opt];
      [destruct (Js.truthy s) |]; reflexivity.
  - intros k Hin. unfold signIn_params in Hin. cbn [In] in Hin.
    rewrite Ha, Hi, Hr in Hin. unfold Js.or_else in Hin.
    destruct Hin as [H | [H | [H | [H | [H | [H | [H | [H | [H | [H | []]]]]]]]]]];
      try discriminate H;
      try (now apply param_or_null_no_array in H).
    destruct (Js.truthy_opt (scope (auth0Config cfg)));
      [destruct (scope (auth0Config cfg)) |]; discriminate H.
Qed.

(** X3: for a configuration with non-empty [audience], [clientId] and
    [redirectUri], [prepareSignInAuthUrl] leaves the world as it is and
    gives [https://{domain}/authorize] with a query that reads back as
    the seven fixed parameters, with the configured scope or the default
    one and the challenge of the session's verifier, followed by
    [login_hint], [connection] and [screen_hint], each only when it is
    given and not empty. *)
Theorem prepareSignInAuthUrl_query {WordArray : Type} (SHA256 : option string -> WordArray)
    (Base64_stringify : WordArray -> string) (w : World) (cfg : Config)
    (loginHint connection screenHint : option string) (a i r : string) :
  config w = Some cfg ->
  audience (auth0Config cfg) = Some a -> a <> "" ->
  clientId (auth0Config cfg) = Some i -> i <> "" ->
  redirectUri (auth0Config cfg) = Some r -> r <> "" ->
  exists query,
    prepareSignInAuthUrl SHA256 Base64_stringify loginHint connection screenHint w
      = (Ok ("https://" +:+ Js.show (domain (auth0Config cfg)) +:+ "/authorize" +:+ query),
         w) /\
    decoded_pairs query
      = ([ ("audience", a); ("scope", scope_sent (auth0Config cfg));
           ("response_type", "code"); ("client_id", i); ("redirect_uri", r);
           ("code_challenge", challenge SHA256 Base64_stringify (verifier w));
           ("code_challenge_method", "S256") ]
         ++ hint_pair "login_hint" loginHint
         ++ hint_pair "connection" connection
         ++ hint_pair "screen_hint" screenHint)%list.
Proof. apply prepareSignInAuthUrl_pairs. Qed.

(** X4: the URL of [prepareSignUpAuthUrl] always carries
    [screen_hint=signup], as its last parameter, and never a
    [connection]. *)
Theorem prepareSignUpAuthUrl_screen_hint {WordArray : Type}
    (SHA256 : option string -> WordArray) (Base64_stringify : WordArray -> string)
    (w : World) (cfg : Config) (loginHint : option string) (a i r : string) :
  config w = Some cfg ->
  audience (auth0Config cfg) = Some a -> a <> "" ->
  clientId (auth0Config cfg) = Some i -> i <> "" ->
  redirectUri (auth0Config cfg) = Some r -> r <> "" ->
  exists query,
    prepareSignUpAuthUrl SHA256 Base64_stringify loginHint w
      = (Ok ("https://" +:+ Js.show (domain (auth0Config cfg)) +:+ "/authorize" +:+ query),
         w) /\
    last (decoded_pairs query) = Some ("screen_hint", "signup") /\
    forall v, ~ In ("connection", v) (decoded_pairs query).
Proof.
  intros Hcfg Ha Hane Hi Hine Hr Hrne. unfold prepareSignUpAuthUrl.
  destruct (prepareSignInAuthUrl_pairs SHA256 Base64_stringify w cfg loginHint None
              (Some "signup") a i r Hcfg Ha Hane Hi Hine Hr Hrne) as (query & Hrun & Hpairs).
  exists query. split; [exact Hrun |]. rewrite Hpairs.
  destruct loginHint as [h |]; cbn [hint_pair]; [destruct (Js.truthy h) |];
    (split; [reflexivity |]); intros v Hin; cbn in Hin;
    repeat (destruct Hin as [Hin | Hin]; [discriminate Hin |]); exact Hin.
Qed.

(** X5: for a configuration with non-empty [clientId] and [redirectUri],
    [prepareLogOutAuthUrl] leaves the world as it is and gives
    [https://{domain}/v2/logout] with a query that reads back as
    [client_id] and [returnTo], the redirect URI. *)
Theorem prepareLogOutAuthUrl_query (w : World) (cfg : Config) (i r : string) :
  config w = Some cfg ->
  clientId (auth0Config cfg) = Some i -> i <> "" ->
  redirectUri (auth0Config cfg) = Some r -> r <> "" ->
  exists query,
    prepareLogOutAuthUrl w
      = (Ok ("https://" +:+ Js.show (domain (auth0Config cfg)) +:+ "/v2/logout" +:+ query),
         w) /\
    decoded_pairs query = [("client_id", i); ("returnTo", r)].
Proof.
  intros Hcfg Hi Hine Hr Hrne. apply truthy_nonempty in Hine, Hrne.
  unfold prepareLogOutAuthUrl. run. rewrite Hcfg, Hi, Hr.
  cbn [Js.truthy_opt]. rewrite Hine, Hrne. cbn [negb orb].
  eexists. split; [reflexivity |].
  rewrite decoded_pairs_query.
  - unfold logOut_params. rewrite Hi, Hr. reflexivity.
  - intros k Hin. unfold logOut_params in Hin. rewrite Hi, Hr in Hin.
    destruct Hin as [H | [H | []]]; discriminate H.
Qed.

(** ** Further properties: the token store and [getAccessToken] *)

Ltac run_all := cbv beta iota zeta delta [bind try_catch ret throw lift log elapse
  update_secure update_settings getSync setSync removeSync getNumber setNumber
  remove hasKey getBoolean setBoolean Date_now this_config this_verifier];
  cbn [fst snd secure settings now trace config verifier draws].

Lemma key_refresh_access : KEY_REFRESH_TOKEN <> KEY_ACCESS_TOKEN.
Proof. discriminate. Qed.

Lemma setTokens_spec (env : Env) (j : TokenJson) (w : World) :
  exists w',
    setTokens env (Some j) w = (Ok tt, w') /\
    secure w' !! KEY_REFRESH_TOKEN
      = (if Js.truthy_opt (refresh_token j) then refresh_token j
         else secure w !! KEY_REFRESH_TOKEN) /\
    secure w' !! KEY_ACCESS_TOKEN
      = (if Js.truthy_opt (access_token j) then access_token j
         else secure w !! KEY_ACCESS_TOKEN) /\
    settings w' !! KEY_ACCESS_TOKEN_EXPIRE
      = (if Js.truthy_opt (access_token j)
         then Some (SNumber (add_seconds (localTZA env) (now w) (expires_in j)))
         else settings w !! KEY_ACCESS_TOKEN_EXPIRE) /\
    (forall k, k <> KEY_REFRESH_TOKEN -> k <> KEY_ACCESS_TOKEN ->
       secure w' !! k = secure w !! k) /\
    (forall k, k <> KEY_ACCESS_TOKEN_EXPIRE -> settings w' !! k = settings w !! k) /\
    trace w' = trace w.
Proof.
  unfold setTokens, storeRefreshToken, storeAccessToken.
  destruct (refresh_token j) as [rt |]; [destruct (Js.truthy rt) eqn:Hrt |];
    (destruct (access_token j) as [at' |]; [destruct (Js.truthy at') eqn:Hat |]);
    cbn [negb Js.truthy_opt]; rewrite ?Hrt, ?Hat; run;
    eexists; (split; [reflexivity |]); cbn [secure settings now trace];
    repeat split; intros;
    repeat (first [ rewrite lookup_insert_eq
                  | rewrite lookup_insert_ne by (congruence || discriminate) ]);
    reflexivity.
Qed.

(** X6: [setTokens] on a token set writes at most the refresh token, the
    access token and the expiry, and does nothing else: a non-empty
    refresh token replaces the stored one and an absent or empty one
    keeps it, likewise for the access token; with an access token goes
    the expiry that [setSeconds] gives, the seconds of [expires_in] added
    to the local calendar time and read back as an instant, which in a
    time zone of one offset and within the range of [Date] is the current
    time plus [expires_in] seconds; every other key of both stores is
    left as it is. *)
Theorem setTokens_effect (env : Env) (j : TokenJson) (w : World) :
  exists w',
    setTokens env (Some j) w = (Ok tt, w') /\
    secure w' !! KEY_REFRESH_TOKEN
      = (if Js.truthy_opt (refresh_token j) then refresh_token j
         else secure w !! KEY_REFRESH_TOKEN) /\
    secure w' !! KEY_ACCESS_TOKEN
      = (if Js.truthy_opt (access_token j) then access_token j
         else secure w !! KEY_ACCESS_TOKEN) /\
    settings w' !! KEY_ACCESS_TOKEN_EXPIRE
      = (if Js.truthy_opt (access_token j)
         then Some (SNumber (add_seconds (localTZA env) (now w) (expires_in j)))
         else settings w !! KEY_ACCESS_TOKEN_EXPIRE) /\
    (forall c k, fixed_offset env c -> Js.truthy_opt (access_token j) = true ->
       expires_in j = Some k -> Z.abs (now w + 1000 * k) <= 8640000000000000 ->
       settings w' !! KEY_ACCESS_TOKEN_EXPIRE = Some (SNumber (Num (now w + 1000 * k)))) /\
    (forall k, k <> KEY_REFRESH_TOKEN -> k <> KEY_ACCESS_TOKEN ->
       secure w' !! k = secure w !! k) /\
    (forall k, k <> KEY_ACCESS_TOKEN_EXPIRE -> settings w' !! k = settings w !! k) /\
    trace w' = trace w.
Proof.
  destruct (setTokens_spec env j w) as (w' & Hrun & Hrt & Hat & Hexp & Hsec & Hset & Htr).
  exists w'. repeat split; try assumption.
  intros c k Hzone Htoken Hk Hrange. rewrite Hexp, Htoken, Hk.
  now rewrite (add_seconds_fixed_offset env c (now w) k Hzone Hrange).
Qed.
Lemma token_valid_stored (w : World) :
  token_valid w -> Js.truthy_opt (secure w !! KEY_ACCESS_TOKEN) = true.
Proof. intros (t & e & -> & Hne & _). now apply truthy_nonempty. Qed.

Lemma getAccessToken_refresh (env : Env) (w : World) :
  0 < now w -> ~ token_valid w -> getAccessToken env false w = refresh env w.
Proof.
  intros Hnow Hno. rewrite getAccessToken_cases.
  pose proof (token_valid_test w Hnow) as Htest.
  destruct (Js.truthy_opt (secure w !! KEY_ACCESS_TOKEN) && number_truthy (stored_expiry w)
            && number_ge (stored_expiry w) (now w)); [| reflexivity].
  exfalso. apply Hno. now apply Htest.
Qed.


(** X8: without a usable stored access token and without a stored refresh
    token (absent or empty), [getAccessToken()] returns [null]: it sends
    no request, leaves both stores as they are and announces [null] on
    [accessToken$]. *)
Theorem getAccessToken_no_refresh_token (env : Env) (w : World) :
  0 < now w ->
  ~ token_valid w ->
  Js.truthy_opt (secure w !! KEY_REFRESH_TOKEN) = false ->
  exists w',
    getAccessToken env false w = (Ok None, w') /\
    trace w' = EvNext None :: trace w /\
    secure w' = secure w /\ settings w' = settings w.
Proof.
  intros Hnow Hno Hrt. rewrite (getAccessToken_refresh env w Hnow Hno).
  unfold refresh, fetchAccessToken. run.
  destruct (secure w !! KEY_REFRESH_TOKEN) as [rt |].
  - cbn in Hrt. rewrite Hrt. cbn. eexists. repeat split.
  - eexists. repeat split.
Qed.

(** X9: without a usable stored access token, with a refresh token and a
    configuration, when the server answers a body with a non-empty access
    token, [getAccessToken()] posts the refresh token to
    [https://{domain}/oauth/token], stores the new access token with the
    expiry that [setSeconds] gives at the time of the answer, replaces the
    refresh token only when the answer carries a non-empty one, announces
    the new token on [accessToken$] and returns it; in a time zone of one
    offset, for a non-negative [expires_in] that stays within the range
    of [Date], the token then stored is usable. *)
Theorem getAccessToken_refreshes (env : Env) (w : World) (cfg : Config)
    (rt a : string) (resp : HttpResponse) (j : TokenJson) :
  0 < now w ->
  ~ token_valid w ->
  secure w !! KEY_REFRESH_TOKEN = Some rt -> rt <> "" ->
  config w = Some cfg ->
  (forall req, request env w req = Ok resp) ->
  content resp = Ok (Some j) ->
  access_token j = Some a -> a <> "" ->
  exists w' req,
    getAccessToken env false w = (Ok (Some a), w') /\
    trace w' = EvNext (Some a) :: EvRequest req (Ok resp) :: trace w /\
    req_url req = "https://" +:+ Js.show (domain (auth0Config cfg)) +:+ "/oauth/token" /\
    req_method req = "POST" /\
    req_content req = [ ("grant_type", Some "refresh_token");
                        ("client_id", clientId (auth0Config cfg));
                        ("refresh_token", Some rt) ] /\
    secure w' !! KEY_ACCESS_TOKEN = Some a /\
    settings w' !! KEY_ACCESS_TOKEN_EXPIRE
      = Some (SNumber (add_seconds (localTZA env) (now w + Z.of_nat (latency env w))
                         (expires_in j))) /\
    secure w' !! KEY_REFRESH_TOKEN
      = (if Js.truthy_opt (refresh_token j) then refresh_token j else Some rt) /\
    (forall c k, fixed_offset env c -> expires_in j = Some k -> 0 <= k ->
       now w + Z.of_nat (latency env w) + 1000 * k <= 8640000000000000 ->
       token_valid w').
Proof.
  intros Hnow Hno Hrt Hrtne Hcfg Hreq Hcontent Ha Hane.
  apply truthy_nonempty in Hrtne. pose proof Hane as Hane'. apply truthy_nonempty in Hane.
  rewrite (getAccessToken_refresh env w Hnow Hno).
  unfold refresh, fetchAccessToken, Http_request, await, storeRefreshToken,
    storeAccessToken.
  run. rewrite Hrt, Hrtne. cbn [negb]. run. rewrite Hcfg. run. rewrite Hreq. run.
  rewrite Hcontent. run. rewrite Ha.
  assert (Hvalid : forall (m : gmap string string) (st : gmap string Setting) z k c v d tr,
            fixed_offset env z -> expires_in j = Some k -> 0 <= k ->
            now w + Z.of_nat (latency env w) + 1000 * k <= 8640000000000000 ->
            token_valid
              {| config := c; verifier := v; secure := <[KEY_ACCESS_TOKEN := a]> m;
                 settings := <[KEY_ACCESS_TOKEN_EXPIRE :=
                                SNumber (add_seconds (localTZA env)
                                           (now w + Z.of_nat (latency env w))
                                           (expires_in j))]> st;
                 now := now w + Z.of_nat (latency env w); draws := d; trace := tr |}).
  { intros m st z k c v d tr Hzone Hk Hk0 Hrange.
    exists a, (now w + Z.of_nat (latency env w) + 1000 * k). cbn [secure settings now].
    rewrite Hk, !lookup_insert_eq.
    rewrite (add_seconds_fixed_offset env z _ k Hzone) by lia.
    repeat split; try assumption; lia. }
  destruct (refresh_token j) as [rt' |]; [destruct (Js.truthy rt') eqn:Hrt' |];
    cbn [negb Js.truthy_opt]; rewrite ?Hrt'; run; rewrite Hane; cbn [negb]; run;
    do 2 eexists; (split; [reflexivity |]); cbn [trace secure settings now];
    (split; [reflexivity |]); cbn [req_url req_method req_content];
    do 3 (split; [reflexivity |]);
    (split; [now rewrite lookup_insert_eq |]);
    (split; [now rewrite lookup_insert_eq |]);
    (split; [rewrite lookup_insert_ne by discriminate;
              first [now rewrite lookup_insert_eq | exact Hrt] |]);
    intros z k Hzone Hk Hk0 Hrange; now apply (Hvalid _ _ z k).
Qed.

(** X10: a [getAccessToken()] that throws throws the error of the
    exchange, wrapping its cause, and has left both stores as they were:
    a failed refresh keeps the stored refresh token. *)
Theorem getAccessToken_failure (env : Env) (w w' : World) (e : Error) :
  getAccessToken env false w = (Throw e, w') ->
  (exists cause, e = ExchangeError cause) /\
  secure w' = secure w /\ settings w' = settings w.
Proof.
  unfold getAccessToken, refresh, fetchAccessToken, Http_request, await,
    storeRefreshToken, storeAccessToken.
  run. repeat (break_match; run); intros Hrun; try discriminate;
    injection Hrun as <- <-; cbn [secure settings]; eauto.
Qed.

(** ** Further properties: [clearStorage], [loggedIn] and [logOut] *)

(** X11: [clearStorage] always succeeds; it removes the five keys and
    leaves every other key of both stores as it is, and it announces the
    empty string on [accessToken$]. *)
Theorem clearStorage_frame (w : World) :
  exists w',
    clearStorage w = (Ok tt, w') /\ keys_absent w' /\
    (forall k, k <> KEY_REFRESH_TOKEN -> k <> KEY_ACCESS_TOKEN ->
       secure w' !! k = secure w !! k) /\
    (forall k, k <> KEY_ACCESS_TOKEN_EXPIRE -> k <> KEY_USER_INFO ->
       k <> KEY_USER_LOGGED_IN -> settings w' !! k = settings w !! k) /\
    trace w' = EvNext (Some "") :: trace w.
Proof.
  destruct (clearStorage_spec w) as (w' & Hrun & Habs & Htr).
  exists w'. split; [exact Hrun |]. split; [exact Habs |].
  unfold clearStorage in Hrun. revert Hrun. run. intros [= <-]. cbn [secure settings].
  repeat split; intros; rewrite ?lookup_delete_ne by congruence; reflexivity.
Qed.

(** X12: no error of the token check escapes [loggedIn]: whatever the
    browser and the server answer or raise during [getAccessToken()],
    [loggedIn] returns (the settings store, which is read before the
    [try], is taken to answer). *)
Theorem loggedIn_never_throws (env : Env) (w : World) :
  exists r w', loggedIn env w = (Ok r, w').
Proof.
  unfold loggedIn. run_all.
  destruct (settings w !! KEY_USER_LOGGED_IN); [eauto |].
  destruct (getAccessToken env false w) as [[t | e] w1]; [| eauto].
  destruct (Js.truthy_opt t); eauto.
Qed.

(** X13: with the flag stored, [loggedIn] answers the flag and nothing
    else happens: no token is read and no request is sent, whatever the
    stores hold otherwise. *)
Theorem loggedIn_cached (env : Env) (w : World) (b : bool) :
  settings w !! KEY_USER_LOGGED_IN = Some (SBoolean b) ->
  loggedIn env w = (Ok (Some b), w).
Proof.
  intros Hflag. unfold loggedIn. run_all. rewrite Hflag. run_all. now rewrite Hflag.
Qed.

Lemma getAccessToken_settings_frame (env : Env) (force : bool) (w : World) (k : string) :
  k <> KEY_ACCESS_TOKEN_EXPIRE ->
  settings (snd (getAccessToken env force w)) !! k = settings w !! k.
Proof.
  intros Hk.
  unfold getAccessToken, refresh, fetchAccessToken, Http_request, await,
    storeRefreshToken, storeAccessToken.
  run. repeat (break_match; run); cbn [snd settings];
    rewrite ?lookup_insert_ne by congruence; reflexivity.
Qed.

(** X14: without the flag, [loggedIn] answers whether [getAccessToken()]
    gave a non-empty token, and stores the flag, as [true], exactly when
    it answers [true]. *)
Theorem loggedIn_uncached (env : Env) (w : World) :
  settings w !! KEY_USER_LOGGED_IN = None ->
  exists b w',
    loggedIn env w = (Ok (Some b), w') /\
    (b = true <->
     exists t w1, getAccessToken env false w = (Ok (Some t), w1) /\ t <> "") /\
    settings w' !! KEY_USER_LOGGED_IN = (if b then Some (SBoolean true) else None).
Proof.
  intros Hflag. unfold loggedIn. run_all. rewrite Hflag.
  pose proof (getAccessToken_settings_frame env false w KEY_USER_LOGGED_IN) as Hframe.
  destruct (getAccessToken env false w) as [[[t |] | e] w1]; cbn [snd] in Hframe.
  - cbn [Js.truthy_opt]. destruct (Js.truthy t) eqn:Ht; do 2 eexists;
      (split; [reflexivity |]); cbn [settings].
    + split; [| now rewrite lookup_insert_eq].
      split; [| reflexivity]. intros _. exists t, w1. split; [reflexivity |].
      now apply truthy_nonempty.
    + split; [| rewrite Hframe by discriminate; exact Hflag].
      split; [discriminate |]. intros (t' & w2 & [= <- _] & Hne).
      apply truthy_nonempty in Hne. congruence.
  - do 2 eexists. split; [reflexivity |].
    split; [| rewrite Hframe by discriminate; exact Hflag].
    split; [discriminate |]. intros (t' & w2 & Heq & _). discriminate Heq.
  - do 2 eexists. split; [reflexivity |].
    split; [| rewrite Hframe by discriminate; exact Hflag].
    split; [discriminate |]. intros (t' & w2 & Heq & _). discriminate Heq.
Qed.

(** X15: on a device where the five keys are absent, as [clearStorage]
    leaves it, [loggedIn] answers [false]: it sends no request, stores no
    flag and leaves both stores as they are. *)
Theorem loggedIn_after_clear (env : Env) (w : World) :
  keys_absent w ->
  exists w',
    loggedIn env w = (Ok (Some false), w') /\
    trace w' = EvNext None :: trace w /\
    secure w' = secure w /\ settings w' = settings w.
Proof.
  intros (Hrt & Hat & _ & _ & Hflag).
  unfold loggedIn, getAccessToken, refresh, fetchAccessToken. run_all.
  repeat first [ rewrite Hflag | rewrite Hat | rewrite Hrt | progress run_all
               | progress cbn [Js.truthy_opt andb negb] ].
  eexists. repeat split.
Qed.

(** X16: when the in-app browser is not available, [logOut] opens the
    logout URL outside the application, clears the five keys and returns
    [true]. *)
Theorem logOut_unavailable (env : Env) (w : World) (url : string) :
  prepareLogOutAuthUrl w = (Ok url, w) ->
  isAvailable env w = Ok false ->
  exists w',
    logOut env w = (Ok true, w') /\ keys_absent w' /\
    trace w' = EvNext (Some "") :: EvOpenUrl url :: EvIsAvailable (Ok false) :: trace w.
Proof.
  intros Hurl Havail. unfold logOut, InAppBrowser_isAvailable, await.
  assert (Hcfg : exists cfg, config w = Some cfg).
  { unfold prepareLogOutAuthUrl in Hurl. revert Hurl. run.
    destruct (config w); [eauto | discriminate]. }
  destruct Hcfg as (cfg & Hcfg). run. rewrite Hcfg. run.
  unfold bind in Hurl. rewrite Hurl. run. rewrite Havail. run.
  match goal with
  | |- context [clearStorage ?x] => destruct (clearStorage_spec x) as (w' & -> & Habs & Htr)
  end.
  exists w'. repeat split; try apply Habs. exact Htr.
Qed.

(** X17: a [logOut] that throws has left both stores as they were; what
    it throws is the error of a missing configuration, raised before the
    browser is asked, or the logout error wrapping what the browser
    raised. *)
Theorem logOut_failure (env : Env) (w w' : World) (e : Error) :
  logOut env w = (Throw e, w') ->
  secure w' = secure w /\ settings w' = settings w /\
  (e = TypeError \/ e = ConfigError \/ exists cause, e = LogoutError cause).
Proof.
  unfold logOut, prepareLogOutAuthUrl, InAppBrowser_isAvailable, InAppBrowser_openAuth, await.
  run.
  repeat (first
    [ match goal with
      | |- context [clearStorage ?x] =>
          destruct (clearStorage_spec x) as (? & -> & ? & ?)
      end
    | break_match ]; run).
  all: intros Hrun; try discriminate; injection Hrun as <- <-; cbn [secure settings];
    eauto 6.
Qed.

(** ** Further properties: [signIn], [signUp] and [setUp] *)

Ltac new_events_are :=
  first [ exists []; split; [reflexivity |]
        | eexists [_]; split; [reflexivity |]
        | eexists [_; _]; split; [reflexivity |]
        | eexists [_; _; _]; split; [reflexivity |]
        | eexists [_; _; _; _]; split; [reflexivity |] ].

(** X18: a [signIn] that returns [false] (the browser gave no code) has
    sent no request to the token endpoint and has left both stores as
    they were. *)
Theorem signIn_false_no_effect {WordArray : Type} (SHA256 : option string -> WordArray)
    (Base64_stringify : WordArray -> string) (env : Env)
    (loginHint connection : option string) (w w' : World) :
  signIn SHA256 Base64_stringify env loginHint connection w = (Ok false, w') ->
  secure w' = secure w /\ settings w' = settings w /\
  exists new,
    trace w' = (new ++ trace w)%list /\
    forall req reply, ~ In (EvRequest req reply) new.
Proof.
  unfold signIn, fetchCodeInAppBrowser, fetchRefreshToken, InAppBrowser_openAuth,
    Http_request, await, prepareSignInAuthUrl, storeRefreshToken, storeAccessToken.
  run. repeat (break_match; run); intros Hrun; try discriminate;
    injection Hrun as <-; cbn [secure settings trace];
    (split; [reflexivity |]); (split; [reflexivity |]);
    new_events_are; intros req reply Hin; cbn [In] in Hin;
    repeat (destruct Hin as [Hin | Hin]; [discriminate Hin |]); exact Hin.
Qed.

(** X19: a [signUp] that throws has left both stores as they were: unlike
    [signIn], it clears nothing. *)
Theorem signUp_failure_keeps_stores {WordArray : Type} (SHA256 : option string -> WordArray)
    (Base64_stringify : WordArray -> string) (env : Env)
    (loginHint : option string) (w w' : World) (e : Error) :
  signUp SHA256 Base64_stringify env loginHint w = (Throw e, w') ->
  secure w' = secure w /\ settings w' = settings w.
Proof.
  unfold signUp, prepareSignUpAuthUrl, fetchCodeInAppBrowser, fetchRefreshToken,
    InAppBrowser_openAuth, Http_request, await, prepareSignInAuthUrl, storeRefreshToken,
    storeAccessToken.
  run. repeat (break_match; run); intros Hrun; try discriminate;
    injection Hrun as <- <-; cbn [secure settings]; split; reflexivity.
Qed.

Lemma code_of_url_nonempty (u c : string) :
  code_of_url u = CodeString c -> Js.truthy u = true.
Proof. destruct u; [discriminate | reflexivity]. Qed.

Lemma fetchRefreshToken_exchange (env : Env) (c v : string) (w : World) (cfg : Config)
    (resp : HttpResponse) (j : TokenJson) :
  Js.truthy c = true -> Js.truthy v = true ->
  config w = Some cfg ->
  (forall w0 req, request env w0 req = Ok resp) ->
  content resp = Ok (Some j) ->
  exists req,
    req_url req = "https://" +:+ Js.show (domain (auth0Config cfg)) +:+ "/oauth/token" /\
    req_method req = "POST" /\
    req_content req = [ ("grant_type", Some "authorization_code");
                        ("client_id", clientId (auth0Config cfg));
                        ("code", Some c);
                        ("code_verifier", Some v);
                        ("audience", audience (auth0Config cfg));
                        ("redirect_uri", redirectUri (auth0Config cfg)) ] /\
    fetchRefreshToken env c (Some v) w
      = setTokens env (Some j)
          {| config := config w; verifier := verifier w; secure := secure w;
             settings := settings w; now := now w + Z.of_nat (latency env w);
             draws := draws w; trace := EvRequest req (Ok resp) :: trace w |}.
Proof.
  intros Hc Hv Hcfg Hhttp Hcontent.
  unfold fetchRefreshToken, Http_request, await, setTokens.
  cbn [Js.truthy_opt]. rewrite Hc, Hv. cbn [negb orb].
  run. rewrite Hcfg. run. rewrite Hhttp. run. rewrite Hcontent. run.
  rewrite ?Hcfg.
  eexists. refine (conj _ (conj _ (conj _ _))); cycle 3;
    [reflexivity | reflexivity | reflexivity | reflexivity].
Qed.

(** X20: with a complete configuration and a verifier, when the browser
    answers success with a callback URL that gives a non-empty code and
    the server answers a body that parses to an object, [signIn] returns
    [true] whatever the status code is: its last act was the post of the
    code with the session's verifier, and the tokens of the answer are
    stored as [setTokens] stores them. *)
Theorem signIn_stores_tokens {WordArray : Type} (SHA256 : option string -> WordArray)
    (Base64_stringify : WordArray -> string) (env : Env)
    (loginHint connection : option string) (w : World) (cfg : Config)
    (v u c : string) (reply : AuthSessionResult) (resp : HttpResponse) (j : TokenJson) :
  config w = Some cfg ->
  Js.truthy_opt (audience (auth0Config cfg)) = true ->
  Js.truthy_opt (clientId (auth0Config cfg)) = true ->
  Js.truthy_opt (redirectUri (auth0Config cfg)) = true ->
  verifier w = Some v -> v <> "" ->
  (forall w0 url returnUrl options, openAuth env w0 url returnUrl options = Ok reply) ->
  res_type reply = success -> res_url reply = Some u ->
  Js.includes "/passwordless" u = false ->
  code_of_url u = CodeString c -> c <> "" ->
  (forall w0 req, request env w0 req = Ok resp) ->
  content resp = Ok (Some j) ->
  exists w' req earlier,
    signIn SHA256 Base64_stringify env loginHint connection w = (Ok true, w') /\
    trace w' = EvRequest req (Ok resp) :: earlier /\
    req_url req = "https://" +:+ Js.show (domain (auth0Config cfg)) +:+ "/oauth/token" /\
    req_method req = "POST" /\
    req_content req = [ ("grant_type", Some "authorization_code");
                        ("client_id", clientId (auth0Config cfg));
                        ("code", Some c);
                        ("code_verifier", Some v);
                        ("audience", audience (auth0Config cfg));
                        ("redirect_uri", redirectUri (auth0Config cfg)) ] /\
    secure w' !! KEY_REFRESH_TOKEN
      = (if Js.truthy_opt (refresh_token j) then refresh_token j
         else secure w !! KEY_REFRESH_TOKEN) /\
    secure w' !! KEY_ACCESS_TOKEN
      = (if Js.truthy_opt (access_token j) then access_token j
         else secure w !! KEY_ACCESS_TOKEN).
Proof.
  intros Hcfg Haud Hcli Hred Hv Hvne Hbrowser Hty Hurl Hpw Hcode Hcne Hhttp Hcontent.
  pose proof (code_of_url_nonempty u c Hcode) as Hu.
  apply truthy_nonempty in Hvne, Hcne.
  unfold signIn, fetchCodeInAppBrowser, InAppBrowser_openAuth, await,
    prepareSignInAuthUrl, is_passwordless.
  repeat first [ rewrite Hcfg | rewrite Haud | rewrite Hcli | rewrite Hred
               | rewrite Hbrowser | rewrite Hty | rewrite Hurl | rewrite Hpw
               | rewrite Hu | rewrite Hcode | rewrite Hcne | rewrite Hv
               | progress run | progress cbn [negb orb] ].
  match goal with
  | |- context [fetchRefreshToken env c (Some v) ?x] =>
      destruct (fetchRefreshToken_exchange env c v x cfg resp j Hcne Hvne eq_refl
                  Hhttp Hcontent) as (req & Hrurl & Hrmethod & Hrcontent & ->)
  end.
  match goal with
  | |- context [setTokens env (Some j) ?x] =>
      destruct (setTokens_spec env j x) as (w' & -> & Hrt & Hat & _ & _ & _ & Htr)
  end.
  exists w', req. eexists. split; [reflexivity |].
  cbn [trace secure] in *. split; [exact Htr |].
  repeat split; assumption.
Qed.

Lemma getRandomValues_loop_draws (random : nat -> Q) (todo draws : nat) (bench : string) :
  snd (getRandomValues_loop random todo draws bench) = (draws + todo)%nat.
Proof.
  revert draws bench. induction todo as [|todo IH]; intros draws bench; cbn.
  - lia.
  - rewrite IH. lia.
Qed.

(** X21: [setUp] asks for a verifier of size 32, which is outside 43..128,
    so with [Math.random] in [0, 1) the session's verifier is 128
    characters of [A-Za-z0-9], drawn by 128 calls of [Math.random]; the
    configuration is the one given and both stores are left as they are,
    whether or not the browser is then primed; off Android nothing else
    happens. *)
Theorem setUp_verifier {WordArray : Type} (SHA256 : option string -> WordArray)
    (Base64_stringify : WordArray -> string) (env : Env) (cfg : Config) (w : World) :
  (forall i, (0 <= random env i)%Q /\ (random env i < 1)%Q) ->
  exists r w' v,
    setUp SHA256 Base64_stringify env cfg w = (r, w') /\
    config w' = Some cfg /\ verifier w' = Some v /\
    String.length v = 128%nat /\ all_chars is_alnum v = true /\
    draws w' = (draws w + 128)%nat /\
    secure w' = secure w /\ settings w' = settings w /\
    (isAndroid env = false -> r = Ok tt /\ trace w' = trace w).
Proof.
  intros Hr.
  assert (Hg : getRandomValues (random env) (Some 32) (draws w)
               = getRandomValues_loop (random env) (Z.to_nat 128) (draws w) "")
    by reflexivity.
  destruct (getRandomValues_loop_spec (random env) Hr (Z.to_nat 128) (draws w) "")
    as [Hlen Hall].
  pose proof (getRandomValues_loop_draws (random env) (Z.to_nat 128) (draws w) "") as Hd.
  unfold setUp, prepareSignInAuthUrl. run. rewrite Hg.
  destruct (getRandomValues_loop (random env) (Z.to_nat 128) (draws w) "") as [v n].
  cbn [fst snd] in Hlen, Hall, Hd. subst n.
  destruct (isAndroid env); repeat (break_match; run);
    do 3 eexists; (split; [reflexivity |]); cbn [config verifier draws secure settings trace];
    repeat split; try reflexivity; try exact Hlen; try (now apply Hall); try discriminate.
Qed.

(** ** Further properties: an invariant of the token store *)

Lemma untouched_keeps {A} (m : M A) : stores_untouched m -> keeps token_inv m.
Proof. intros Hm w Hw t. destruct (Hm w) as [-> ->]. exact (Hw t). Qed.

Lemma keeps_bind {A B} (P : World -> Prop) (m : M A) (k : A -> M B) :
  keeps P m -> (forall a, keeps P (k a)) -> keeps P (bind m k).
Proof.
  intros Hm Hk w Hw. unfold bind. specialize (Hm w Hw).
  destruct (m w) as [[a | e] w1]; cbn [snd] in *; [now apply Hk | exact Hm].
Qed.

Lemma keeps_try_catch {A} (P : World -> Prop) (m : M A) (h : Error -> M A) :
  keeps P m -> (forall e, keeps P (h e)) -> keeps P (try_catch m h).
Proof.
  intros Hm Hh w Hw. unfold try_catch. specialize (Hm w Hw).
  destruct (m w) as [[a | e] w1]; cbn [snd] in *; [exact Hm | now apply Hh].
Qed.

Lemma untouched_ret {A} (a : A) : stores_untouched (ret a).
Proof. intros w. split; reflexivity. Qed.

Lemma untouched_throw {A} (e : Error) : stores_untouched (@throw A e).
Proof. intros w. split; reflexivity. Qed.

Lemma untouched_lift {A} (r : Result A) : stores_untouched (lift r).
Proof. intros w. destruct r; split; reflexivity. Qed.

Lemma untouched_log (e : Event) : stores_untouched (log e).
Proof. intros w. split; reflexivity. Qed.

Lemma untouched_await (env : Env) {A} (ask : World -> Result A) (event : Result A -> Event) :
  stores_untouched (await env ask event).
Proof. intros w. unfold await. run. destruct (ask w); split; reflexivity. Qed.

Lemma untouched_this_config : stores_untouched this_config.
Proof. intros w. unfold this_config. destruct (config w); split; reflexivity. Qed.

Lemma untouched_this_verifier : stores_untouched this_verifier.
Proof. intros w. split; reflexivity. Qed.

Lemma untouched_getSync (key : string) : stores_untouched (getSync key).
Proof. intros w. split; reflexivity. Qed.

Lemma untouched_getNumber (key : string) : stores_untouched (getNumber key).
Proof. intros w. split; reflexivity. Qed.

Lemma untouched_hasKey (key : string) : stores_untouched (hasKey key).
Proof. intros w. split; reflexivity. Qed.

Lemma untouched_getBoolean (key : string) : stores_untouched (getBoolean key).
Proof. intros w. split; reflexivity. Qed.

Lemma untouched_Date_now : stores_untouched Date_now.
Proof. intros w. split; reflexivity. Qed.

Lemma keeps_storeRefreshToken (json : option TokenJson) :
  keeps token_inv (storeRefreshToken json).
Proof.
  intros w Hw t. unfold storeRefreshToken.
  destruct json as [j |]; [| exact (Hw t)].
  destruct (refresh_token j) as [rt |]; [| exact (Hw t)].
  destruct (Js.truthy rt); cbn [negb]; [| exact (Hw t)].
  run. rewrite lookup_insert_ne by discriminate. exact (Hw t).
Qed.

Lemma keeps_storeAccessToken (env : Env) (json : option TokenJson) :
  keeps token_inv (storeAccessToken env json).
Proof.
  intros w Hw t. unfold storeAccessToken.
  destruct json as [j |]; [| exact (Hw t)].
  destruct (access_token j) as [token |]; [| exact (Hw t)].
  destruct (Js.truthy token) eqn:Htoken; cbn [negb]; [| exact (Hw t)].
  run. rewrite !lookup_insert_eq. intros [= <-].
  split; [now apply truthy_nonempty | eauto].
Qed.

Lemma keeps_clearStorage : keeps token_inv clearStorage.
Proof.
  intros w _ t. destruct (clearStorage_spec w) as (w' & -> & (_ & Hat & _) & _).
  cbn [snd]. rewrite Hat. discriminate.
Qed.

Lemma keeps_forget_access_token : keeps token_inv (removeSync KEY_ACCESS_TOKEN).
Proof. intros w _ t. unfold removeSync. run. rewrite lookup_delete_eq. discriminate. Qed.

Lemma keeps_set_flag (b : bool) : keeps token_inv (setBoolean KEY_USER_LOGGED_IN b).
Proof.
  intros w Hw t. unfold setBoolean. run. rewrite lookup_insert_ne by discriminate.
  exact (Hw t).
Qed.

Create HintDb untouched.
#[local] Hint Resolve untouched_ret untouched_throw untouched_lift untouched_log
  untouched_await untouched_this_config untouched_this_verifier untouched_getSync
  untouched_getNumber untouched_hasKey untouched_getBoolean untouched_Date_now
  : untouched.

(** One step of a proof that a method keeps the invariant. *)
Ltac keeps_step :=
  first
    [ apply keeps_storeRefreshToken
    | apply keeps_storeAccessToken
    | apply keeps_clearStorage
    | apply keeps_forget_access_token
    | apply keeps_set_flag
    | apply untouched_keeps; solve [auto with untouched]
    | apply keeps_bind; [| intros ?]
    | apply keeps_try_catch; [| intros ?]
    | match goal with
      | |- keeps _ (match ?x with _ => _ end) => destruct x
      end
    | progress cbv zeta ].

Lemma keeps_prepareSignInAuthUrl {WordArray : Type} (SHA256 : option string -> WordArray)
    (Base64_stringify : WordArray -> string) (loginHint connection screenHint : option string) :
  keeps token_inv
    (prepareSignInAuthUrl SHA256 Base64_stringify loginHint connection screenHint).
Proof. unfold prepareSignInAuthUrl. repeat keeps_step. Qed.

Lemma keeps_fetchCodeInAppBrowser {WordArray : Type} (SHA256 : option string -> WordArray)
    (Base64_stringify : WordArray -> string) (env : Env) (authorizeUrl : string) :
  keeps token_inv (fetchCodeInAppBrowser SHA256 Base64_stringify env authorizeUrl).
Proof.
  unfold fetchCodeInAppBrowser, InAppBrowser_openAuth.
  repeat first [ apply keeps_prepareSignInAuthUrl | keeps_step ].
Qed.

Lemma keeps_fetchRefreshToken (env : Env) (code : string) (v : option string) :
  keeps token_inv (fetchRefreshToken env code v).
Proof. unfold fetchRefreshToken, Http_request. repeat keeps_step. Qed.

Lemma keeps_getAccessToken (env : Env) (force : bool) :
  keeps token_inv (getAccessToken env force).
Proof.
  unfold getAccessToken, refresh, fetchAccessToken, Http_request. repeat keeps_step.
Qed.

(** X22: every method keeps the token store well formed: if every stored
    access token is a non-empty string that comes with a stored expiry
    number, the same holds after [signIn], [signUp], [logOut],
    [getAccessToken], [loggedIn], [setTokens] and [setUp], however they
    end. *)
Theorem methods_keep_token_inv {WordArray : Type} (SHA256 : option string -> WordArray)
    (Base64_stringify : WordArray -> string) (env : Env) (w : World) :
  token_inv w ->
  (forall loginHint connection,
     token_inv (snd (signIn SHA256 Base64_stringify env loginHint connection w))) /\
  (forall loginHint,
     token_inv (snd (signUp SHA256 Base64_stringify env loginHint w))) /\
  token_inv (snd (logOut env w)) /\
  (forall force, token_inv (snd (getAccessToken env force w))) /\
  token_inv (snd (loggedIn env w)) /\
  (forall json, token_inv (snd (setTokens env json w))) /\
  (forall cfg, token_inv (snd (setUp SHA256 Base64_stringify env cfg w))).
Proof.
  intros Hw.
  split; [intros loginHint connection |].
  2: split; [intros loginHint |].
  3: split; [| split; [intros force |]].
  5: split; [| split; [intros json | intros cfg]].
  all: match goal with
       | H : token_inv ?w0 |- token_inv (snd (?m ?w0)) =>
           revert w0 H; change (keeps token_inv m)
       end.
  - unfold signIn.
    repeat first [ apply keeps_prepareSignInAuthUrl | apply keeps_fetchCodeInAppBrowser
                 | apply keeps_fetchRefreshToken | keeps_step ].
  - unfold signUp, prepareSignUpAuthUrl.
    repeat first [ apply keeps_prepareSignInAuthUrl | apply keeps_fetchCodeInAppBrowser
                 | apply keeps_fetchRefreshToken | keeps_step ].
  - unfold logOut, prepareLogOutAuthUrl, InAppBrowser_isAvailable, InAppBrowser_openAuth.
    repeat keeps_step.
  - apply keeps_getAccessToken.
  - unfold loggedIn. repeat first [ apply keeps_getAccessToken | keeps_step ].
  - unfold setTokens. repeat keeps_step.
  - unfold setUp. apply keeps_bind.
    + intros w Hw t. destruct (getRandomValues (random env) (Some 32) (draws w)).
      exact (Hw t).
    + intros _. repeat first [ apply keeps_prepareSignInAuthUrl | keeps_step ].
Qed.

(** ** Further properties: the passwordless restart *)

(** X23: when the first callback is a success whose URL holds
    [/passwordless], [fetchCodeInAppBrowser] opens the browser a second
    time, on an authorize URL that asks for the [email] connection with
    the [login_hint] of the first callback (when it has a non-empty
    one) and no [screen_hint]. *)
Theorem fetchCode_passwordless_restart {WordArray : Type}
    (SHA256 : option string -> WordArray) (Base64_stringify : WordArray -> string)
    (env : Env) (authorizeUrl : string) (w : World) (cfg : Config) (a i r u : string)
    (reply : AuthSessionResult) (hint : option string) :
  config w = Some cfg ->
  audience (auth0Config cfg) = Some a -> a <> "" ->
  clientId (auth0Config cfg) = Some i -> i <> "" ->
  redirectUri (auth0Config cfg) = Some r -> r <> "" ->
  openAuth env w authorizeUrl (Some r) None = Ok reply ->
  res_type reply = success -> res_url reply = Some u ->
  Js.includes "/passwordless" u = true ->
  searchParam env u "login_hint" = Ok hint ->
  exists query second res w',
    fetchCodeInAppBrowser SHA256 Base64_stringify env authorizeUrl w = (res, w') /\
    trace w'
      = EvOpenAuth
          ("https://" +:+ Js.show (domain (auth0Config cfg)) +:+ "/authorize" +:+ query)
          (Some r) None second
        :: EvOpenAuth authorizeUrl (Some r) None (Ok reply) :: trace w /\
    decoded_pairs query
      = ([ ("audience", a); ("scope", scope_sent (auth0Config cfg));
           ("response_type", "code"); ("client_id", i); ("redirect_uri", r);
           ("code_challenge", challenge SHA256 Base64_stringify (verifier w));
           ("code_challenge_method", "S256") ]
         ++ hint_pair "login_hint" hint ++ [("connection", "email")])%list.
Proof.
  intros Hcfg Ha Hane Hi Hine Hr Hrne Hreply Hty Hurl Hpw Hsearch.
  unfold fetchCodeInAppBrowser, InAppBrowser_openAuth, await, is_passwordless.
  repeat first [ rewrite Hcfg | rewrite Hr | rewrite Hreply | rewrite Hty | rewrite Hurl
               | rewrite Hpw | rewrite Hsearch | progress run | progress cbn [Js.show] ].
  match goal with
  | |- context [prepareSignInAuthUrl SHA256 Base64_stringify hint (Some "email") None ?x] =>
      destruct (prepareSignInAuthUrl_pairs SHA256 Base64_stringify x cfg hint
                  (Some "email") None a i r eq_refl Ha Hane Hi Hine Hr Hrne)
        as (query & -> & Hpairs)
  end.
  run. exists query.
  match goal with
  | |- context [openAuth env ?x ?url ?ret ?o] => exists (openAuth env x url ret o);
      destruct (openAuth env x url ret o) as [second | e]
  end; run.
  - destruct (res_type second); [destruct (res_url second) as [u2 |];
      [destruct (Js.truthy u2) |] | |];
      do 2 eexists; (split; [reflexivity |]); cbn [trace verifier] in *;
      (split; [reflexivity |]); rewrite Hpairs; cbn [hint_pair Js.truthy];
      now rewrite List.app_nil_r.
  - do 2 eexists. split; [reflexivity |]. cbn [trace verifier] in *.
    split; [reflexivity |]. rewrite Hpairs. cbn [hint_pair Js.truthy].
    now rewrite List.app_nil_r.
Qed.

(** ** The further properties at work on the sample device *)

Lemma objectToQueryParams_round_trip_witness :
  decoded_pairs (objectToQueryParams Sample.params)
    = [("q", "a b&c"); ("tag", "x"); ("tag", "y=z"); ("filter", "{}")].
Proof.
  rewrite (objectToQueryParams_round_trip Sample.params); [reflexivity |].
  intros k Hin. cbn in Hin.
  repeat (destruct Hin as [Hin | Hin]; [discriminate Hin |]). exact Hin.
Defined.

Lemma prepareSignInAuthUrl_query_witness :
  exists query,
    prepareSignInAuthUrl Sample.SHA256 Sample.Base64_stringify (Some "me") None None
      Sample.fresh
    = (Ok ("https://" +:+ "t.auth0.com" +:+ "/authorize" +:+ query), Sample.fresh) /\
    decoded_pairs query
      = [ ("audience", "a"); ("scope", "offline_access openid profile email");
          ("response_type", "code"); ("client_id", "c"); ("redirect_uri", "app://cb");
          ("code_challenge", "abc-_"); ("code_challenge_method", "S256");
          ("login_hint", "me") ].
Proof.
  apply (prepareSignInAuthUrl_query Sample.SHA256 Sample.Base64_stringify Sample.fresh
           Sample.cfg (Some "me") None None "a" "c" "app://cb");
    first [reflexivity | discriminate].
Defined.

Lemma prepareSignUpAuthUrl_screen_hint_witness :
  exists query,
    prepareSignUpAuthUrl Sample.SHA256 Sample.Base64_stringify None Sample.fresh
    = (Ok ("https://" +:+ "t.auth0.com" +:+ "/authorize" +:+ query), Sample.fresh) /\
    last (decoded_pairs query) = Some ("screen_hint", "signup") /\
    forall v, ~ In ("connection", v) (decoded_pairs query).
Proof.
  apply (prepareSignUpAuthUrl_screen_hint Sample.SHA256 Sample.Base64_stringify
           Sample.fresh Sample.cfg None "a" "c" "app://cb");
    first [reflexivity | discriminate].
Defined.

Lemma prepareLogOutAuthUrl_query_witness :
  exists query,
    prepareLogOutAuthUrl Sample.fresh
    = (Ok ("https://" +:+ "t.auth0.com" +:+ "/v2/logout" +:+ query), Sample.fresh) /\
    decoded_pairs query = [("client_id", "c"); ("returnTo", "app://cb")].
Proof.
  apply (prepareLogOutAuthUrl_query Sample.fresh Sample.cfg "c" "app://cb");
    first [reflexivity | discriminate].
Defined.

Lemma fresh_not_valid : ~ token_valid Sample.fresh.
Proof. intros (t & e & Ht & _). vm_compute in Ht. discriminate Ht. Qed.

Lemma expired_not_valid : ~ token_valid Sample.expired.
Proof.
  intros (t & e & _ & _ & He & Hle). vm_compute in He. injection He as <-.
  vm_compute in Hle. now apply Hle.
Qed.

Lemma getAccessToken_no_refresh_token_witness :
  exists w',
    getAccessToken (Sample.env Sample.cancelled Sample.token_response) false Sample.fresh
    = (Ok None, w') /\
    trace w' = [EvNext None].
Proof.
  destruct (getAccessToken_no_refresh_token
              (Sample.env Sample.cancelled Sample.token_response) Sample.fresh
              eq_refl fresh_not_valid eq_refl) as (w' & Hrun & Htr & _).
  exists w'. split; [exact Hrun | exact Htr].
Defined.

Lemma getAccessToken_refreshes_witness :
  exists w',
    getAccessToken (Sample.env Sample.cancelled Sample.token_response) false Sample.expired
    = (Ok (Some "X"), w') /\
    secure w' !! KEY_REFRESH_TOKEN = Some "Y" /\ token_valid w'.
Proof.
  destruct (getAccessToken_refreshes
              (Sample.env Sample.cancelled Sample.token_response) Sample.expired
              Sample.cfg "R" "X" {| statusCode := 200; content := Ok (Some Sample.tokens) |}
              Sample.tokens eq_refl expired_not_valid)
    as (w' & req & Hrun & _ & _ & _ & _ & _ & _ & Hrt & Hvalid);
    try first [reflexivity | discriminate].
  exists w'. split; [exact Hrun |]. split; [exact Hrt |].
  apply (Hvalid 0 3600); [intros t isUTC; reflexivity | reflexivity | discriminate
                         | discriminate].
Defined.

Lemma getAccessToken_failure_witness :
  exists w',
    getAccessToken (Sample.env Sample.cancelled Sample.network_down) false Sample.expired
    = (Throw (ExchangeError (Rejected "network")), w') /\
    secure w' = secure Sample.expired /\ settings w' = settings Sample.expired.
Proof.
  eexists. split; [vm_compute; reflexivity |].
  apply (getAccessToken_failure (Sample.env Sample.cancelled Sample.network_down)
           Sample.expired _ (ExchangeError (Rejected "network"))).
  vm_compute. reflexivity.
Defined.

Lemma loggedIn_cached_witness :
  loggedIn (Sample.env Sample.cancelled Sample.network_down) Sample.signed_in
  = (Ok (Some true), Sample.signed_in).
Proof.
  apply (loggedIn_cached (Sample.env Sample.cancelled Sample.network_down)
           Sample.signed_in true).
  reflexivity.
Defined.

Lemma loggedIn_uncached_witness :
  exists b w',
    loggedIn (Sample.env Sample.cancelled Sample.token_response) Sample.expired
    = (Ok (Some b), w') /\
    settings w' !! KEY_USER_LOGGED_IN = (if b then Some (SBoolean true) else None).
Proof.
  destruct (loggedIn_uncached (Sample.env Sample.cancelled Sample.token_response)
              Sample.expired eq_refl) as (b & w' & Hrun & _ & Hflag).
  exists b, w'. split; [exact Hrun | exact Hflag].
Defined.

Lemma fresh_keys_absent : keys_absent Sample.fresh.
Proof. repeat split. Qed.

Lemma loggedIn_after_clear_witness :
  exists w',
    loggedIn (Sample.env Sample.cancelled Sample.token_response) Sample.fresh
    = (Ok (Some false), w') /\
    trace w' = [EvNext None].
Proof.
  destruct (loggedIn_after_clear (Sample.env Sample.cancelled Sample.token_response)
              Sample.fresh fresh_keys_absent) as (w' & Hrun & Htr & _).
  exists w'. split; [exact Hrun | exact Htr].
Defined.

Lemma logOut_unavailable_witness :
  exists w',
    logOut Sample.without_browser Sample.signed_in = (Ok true, w') /\ keys_absent w'.
Proof.
  destruct (logOut_unavailable Sample.without_browser Sample.signed_in
              "https://t.auth0.com/v2/logout?client_id=c&returnTo=app%3A%2F%2Fcb"
              eq_refl eq_refl) as (w' & Hrun & Habs & _).
  exists w'. split; [exact Hrun | exact Habs].
Defined.

Lemma logOut_failure_witness :
  exists w',
    logOut (Sample.env Sample.browser_down Sample.network_down) Sample.signed_in
    = (Throw (LogoutError (Rejected "browser")), w') /\
    secure w' = secure Sample.signed_in /\ settings w' = settings Sample.signed_in.
Proof.
  eexists. split; [vm_compute; reflexivity |].
  refine (let H := logOut_failure (Sample.env Sample.browser_down Sample.network_down)
                     Sample.signed_in _ (LogoutError (Rejected "browser")) _ in
          conj (proj1 H) (proj1 (proj2 H))).
  vm_compute. reflexivity.
Defined.

Lemma signIn_false_no_effect_witness :
  exists w',
    signIn Sample.SHA256 Sample.Base64_stringify
      (Sample.env Sample.cancelled Sample.token_response) None None Sample.signed_in
    = (Ok false, w') /\
    secure w' = secure Sample.signed_in /\ settings w' = settings Sample.signed_in.
Proof.
  eexists. split; [vm_compute; reflexivity |].
  refine (let H := signIn_false_no_effect Sample.SHA256 Sample.Base64_stringify
                     (Sample.env Sample.cancelled Sample.token_response) None None
                     Sample.signed_in _ _ in conj (proj1 H) (proj1 (proj2 H))).
  vm_compute. reflexivity.
Defined.

Lemma signUp_failure_keeps_stores_witness :
  exists w',
    signUp Sample.SHA256 Sample.Base64_stringify
      (Sample.env (Sample.callback Sample.code_url) Sample.network_down) None
      Sample.signed_in
    = (Throw (Rejected "network"), w') /\
    secure w' = secure Sample.signed_in /\ settings w' = settings Sample.signed_in.
Proof.
  eexists. split; [vm_compute; reflexivity |].
  apply (signUp_failure_keeps_stores Sample.SHA256 Sample.Base64_stringify
           (Sample.env (Sample.callback Sample.code_url) Sample.network_down) None
           Sample.signed_in _ (Rejected "network")).
  vm_compute. reflexivity.
Defined.

Lemma signIn_stores_tokens_witness :
  exists w',
    signIn Sample.SHA256 Sample.Base64_stringify
      (Sample.env (Sample.callback Sample.code_url) Sample.token_response) None None
      Sample.fresh
    = (Ok true, w') /\
    secure w' !! KEY_REFRESH_TOKEN = Some "Y" /\
    secure w' !! KEY_ACCESS_TOKEN = Some "X".
Proof.
  destruct (signIn_stores_tokens Sample.SHA256 Sample.Base64_stringify
              (Sample.env (Sample.callback Sample.code_url) Sample.token_response)
              None None Sample.fresh Sample.cfg "abc" Sample.code_url "abc"
              {| res_type := success; res_url := Some Sample.code_url |}
              {| statusCode := 200; content := Ok (Some Sample.tokens) |} Sample.tokens)
    as (w' & req & earlier & Hrun & _ & _ & _ & _ & Hrt & Hat);
    try first [reflexivity | discriminate | (intros; reflexivity)].
  exists w'. split; [exact Hrun |]. split; [exact Hrt | exact Hat].
Defined.

Lemma sample_random_range (i : nat) :
  (0 <= random (Sample.env Sample.cancelled Sample.network_down) i)%Q /\
  (random (Sample.env Sample.cancelled Sample.network_down) i < 1)%Q.
Proof. split; [discriminate | reflexivity]. Qed.

Lemma setUp_verifier_witness :
  exists r w' v,
    setUp Sample.SHA256 Sample.Base64_stringify
      (Sample.env Sample.cancelled Sample.network_down) Sample.cfg Sample.signed_in
    = (r, w') /\
    verifier w' = Some v /\ String.length v = 128%nat.
Proof.
  destruct (setUp_verifier Sample.SHA256 Sample.Base64_stringify
              (Sample.env Sample.cancelled Sample.network_down) Sample.cfg
              Sample.signed_in sample_random_range)
    as (r & w' & v & Hrun & _ & Hv & Hlen & _).
  exists r, w', v. split; [exact Hrun |]. split; [exact Hv | exact Hlen].
Defined.

Lemma signed_in_token_inv : token_inv Sample.signed_in.
Proof.
  intros t Ht. vm_compute in Ht. injection Ht as <-.
  split; [discriminate |]. eexists. vm_compute. reflexivity.
Qed.

Lemma methods_keep_token_inv_witness :
  token_inv (snd (logOut (Sample.env Sample.cancelled Sample.token_response)
                    Sample.signed_in)) /\
  token_inv (snd (getAccessToken (Sample.env Sample.cancelled Sample.token_response)
                    true Sample.signed_in)).
Proof.
  destruct (methods_keep_token_inv Sample.SHA256 Sample.Base64_stringify
              (Sample.env Sample.cancelled Sample.token_response) Sample.signed_in
              signed_in_token_inv) as (_ & _ & HlogOut & HgetAccessToken & _).
  split; [exact HlogOut | exact (HgetAccessToken true)].
Defined.

Lemma fetchCode_passwordless_restart_witness :
  exists query second res w',
    fetchCodeInAppBrowser Sample.SHA256 Sample.Base64_stringify
      (Sample.env (Sample.callback Sample.passwordless_url) Sample.token_response)
      "https://t.auth0.com/authorize" Sample.fresh
    = (res, w') /\
    trace w'
      = [ EvOpenAuth ("https://" +:+ "t.auth0.com" +:+ "/authorize" +:+ query)
            (Some "app://cb") None second;
          EvOpenAuth "https://t.auth0.com/authorize" (Some "app://cb") None
            (Sample.callback Sample.passwordless_url) ] /\
    In ("connection", "email") (decoded_pairs query).
Proof.
  destruct (fetchCode_passwordless_restart Sample.SHA256 Sample.Base64_stringify
              (Sample.env (Sample.callback Sample.passwordless_url) Sample.token_response)
              "https://t.auth0.com/authorize" Sample.fresh Sample.cfg "a" "c" "app://cb"
              Sample.passwordless_url
              {| res_type := success; res_url := Some Sample.passwordless_url |} None)
    as (query & second & res & w' & Hrun & Htr & Hpairs);
    try first [reflexivity | discriminate].
  exists query, second, res, w'. split; [exact Hrun |]. split; [exact Htr |].
  rewrite Hpairs. cbn. do 7 right. left. reflexivity.
Defined.
